(** * lf_workflow_dash.data_types: workflow status model and fleet statistics

    A shallow embedding of [src/lf_workflow_dash/data_types.py]:
    - [WorkflowElemData] with its constructor and [set_status];
    - [ProjectData] with its constructor and [set_copier_version];
    - [calculate_statistics], the aggregation pass over a list of projects.

    Python objects are mutable and passed by reference, so the aggregation is
    written over an explicit object store: a project list is a list of
    references, and assigning to an attribute updates the store. Python
    [int] is [Z], [str] is [string], [float] is the kernel's binary64
    [float], and the returned [dict] is a [gmap string pyval]. *)

From Stdlib Require Import PrimFloat.
From Stdlib Require SpecFloat FloatOps.
From Stdlib Require Import ZArith String Ascii.
From stdpp Require Import base option list gmap strings pretty.

Open Scope Z_scope.

(** ** Strings *)

(** [s.replace(old, new)] for a non-empty [old]: occurrences are replaced from
    left to right and do not overlap. [skip] counts the characters of a match
    that are still to be dropped. *)
Fixpoint str_replace_from (old new s : string) (skip : nat) : string :=
  match s with
  | EmptyString => EmptyString
  | String c rest =>
      match skip with
      | S k => str_replace_from old new rest k
      | O =>
          if String.prefix old s
          then new +:+ str_replace_from old new rest (String.length old - 1)
          else String c (str_replace_from old new rest O)
      end
  end.

Definition str_replace (old new s : string) : string :=
  str_replace_from old new s O.

(** ** WorkflowElemData *)

(** The dataclass' fields, in declaration order. Fields that [__init__] does
    not assign read as the class-level defaults. [owner] and [repo] are
    [wf_owner] and [wf_repo] here, the plain names being those of
    [ProjectData]. *)
Record WorkflowElemData := mkWorkflowElemData {
  workflow_name : string;
  workflow_url : string;
  workflow_status : string;
  display_class : string;
  icon_class : string;
  wf_owner : string;
  wf_repo : string;
  conclusion_time : string;
  conclusion_time_one_line : string;
  is_stale : bool;
  friendly_name : string;
  branch : string
}.

(** [WorkflowElemData.__init__(self, workflow_name, repo_url, owner, repo, branch="")] *)
Definition WorkflowElemData_init
    (workflow_name repo_url owner repo branch : string) : WorkflowElemData :=
  {| workflow_name := workflow_name;
     wf_owner := owner;
     wf_repo := repo;
     workflow_url := repo_url +:+ "/actions/workflows/" +:+ workflow_name;
     workflow_status := "pending";
     display_class := "yellow-cell";
     icon_class := "fa-solid fa-circle-question";
     branch := branch;
     conclusion_time := "";
     conclusion_time_one_line := "";
     is_stale := false;
     friendly_name := "" |}.

(** The assignments [self.display_class = d; self.icon_class = i]. *)
Definition assign_display (d i : string) (self : WorkflowElemData)
    : WorkflowElemData :=
  {| workflow_name := workflow_name self;
     workflow_url := workflow_url self;
     workflow_status := workflow_status self;
     display_class := d;
     icon_class := i;
     wf_owner := wf_owner self;
     wf_repo := wf_repo self;
     conclusion_time := conclusion_time self;
     conclusion_time_one_line := conclusion_time_one_line self;
     is_stale := is_stale self;
     friendly_name := friendly_name self;
     branch := branch self |}.

(** [WorkflowElemData.set_status(self, status, conclusion_time, is_stale)]:
    the object after the call. The four unconditional assignments come first;
    [display_class] and [icon_class] are assigned only in the two branches. *)
Definition set_status (status conclusion_time : string) (is_stale : bool)
    (self : WorkflowElemData) : WorkflowElemData :=
  let self :=
    {| workflow_name := workflow_name self;
       workflow_url := workflow_url self;
       workflow_status := status;
       display_class := display_class self;
       icon_class := icon_class self;
       wf_owner := wf_owner self;
       wf_repo := wf_repo self;
       conclusion_time := conclusion_time;
       conclusion_time_one_line := str_replace "<br>" " " conclusion_time;
       is_stale := is_stale;
       friendly_name := friendly_name self;
       branch := branch self |} in
  if String.eqb status "success" then
    assign_display "green-cell" "fa-solid fa-circle-check" self
  else if String.eqb status "failure" then
    assign_display "red-cell" "fa-solid fa-circle-xmark" self
  else self.

(** A run of [set_status] calls on one object, first call first. *)
Definition set_status_calls (calls : list (string * string * bool))
    (self : WorkflowElemData) : WorkflowElemData :=
  foldl (λ w '(status, time, stale), set_status status time stale w) self calls.

(** The display attributes the specification assigns to a status:
    success is positive, failure is negative, everything else is neutral. *)
Definition display_of_status (status : string) : string * string :=
  if String.eqb status "success" then
    ("green-cell", "fa-solid fa-circle-check")
  else if String.eqb status "failure" then
    ("red-cell", "fa-solid fa-circle-xmark")
  else ("yellow-cell", "fa-solid fa-circle-question").

Definition display_agrees (w : WorkflowElemData) : Prop :=
  (display_class w, icon_class w) = display_of_status (workflow_status w).

(** ** Versions *)

(** Modelled from the spec: [semver.Version], the type of the arguments of
    [set_copier_version], comes from the third-party [semver] package and is
    not part of the source tree. A version is major.minor.patch, compared
    component by component as numbers (the precedence rule of semantic
    versioning), and prints as the three numbers joined by dots. *)
Record Version := mkVersion { major : N; minor : N; patch : N }.

(** Modelled from the spec: [Version.__lt__]. *)
Definition Version_lt (a b : Version) : bool :=
  ((major a <? major b)
   || ((major a =? major b)
       && ((minor a <? minor b)
           || ((minor a =? minor b) && (patch a <? patch b)))))%N.

(** Modelled from the spec: [Version.__eq__]. *)
Definition Version_eq (a b : Version) : bool :=
  ((major a =? major b) && (minor a =? minor b) && (patch a =? patch b))%N.

(** Modelled from the spec: [Version.__str__]. *)
Definition Version_str (v : Version) : string :=
  pretty (major v) +:+ "." +:+ pretty (minor v) +:+ "." +:+ pretty (patch v).

(** The lexical order of [str], for comparison with [Version_lt]. *)
Definition str_lt (a b : string) : bool :=
  match String.compare a b with Lt => true | _ => false end.

(** ** ProjectData *)

(** References to objects in the store. *)
Definition loc := positive.

(** The dataclass' fields. A workflow slot holds [None] or a reference to a
    [WorkflowElemData]; [other_workflows] is a list of such references. *)
Record ProjectData := mkProjectData {
  owner : string;
  repo : string;
  icon : string;
  repo_url : string;
  copier_version : string;
  copier_version_display_class : string;
  passing_workflows : Z;
  failing_workflows : Z;
  smoke_test : option loc;
  build_docs : option loc;
  benchmarks : option loc;
  live_build : option loc;
  other_workflows : list loc
}.

(** [ProjectData(owner=owner, repo=repo)]: the generated [__init__] with every
    other field at its default, followed by [__post_init__]. *)
Definition ProjectData_init (owner repo : string) : ProjectData :=
  {| owner := owner;
     repo := repo;
     icon := "";
     repo_url := "https://github.com/" +:+ owner +:+ "/" +:+ repo;
     copier_version := "";
     copier_version_display_class := "yellow-cell";
     passing_workflows := 0;
     failing_workflows := 0;
     smoke_test := None;
     build_docs := None;
     benchmarks := None;
     live_build := None;
     other_workflows := [] |}.

Definition assign_copier_version (s : string) (self : ProjectData) : ProjectData :=
  {| owner := owner self; repo := repo self; icon := icon self;
     repo_url := repo_url self;
     copier_version := s;
     copier_version_display_class := copier_version_display_class self;
     passing_workflows := passing_workflows self;
     failing_workflows := failing_workflows self;
     smoke_test := smoke_test self; build_docs := build_docs self;
     benchmarks := benchmarks self; live_build := live_build self;
     other_workflows := other_workflows self |}.

Definition assign_copier_version_display_class (s : string) (self : ProjectData)
    : ProjectData :=
  {| owner := owner self; repo := repo self; icon := icon self;
     repo_url := repo_url self;
     copier_version := copier_version self;
     copier_version_display_class := s;
     passing_workflows := passing_workflows self;
     failing_workflows := failing_workflows self;
     smoke_test := smoke_test self; build_docs := build_docs self;
     benchmarks := benchmarks self; live_build := live_build self;
     other_workflows := other_workflows self |}.

Definition assign_passing_workflows (n : Z) (self : ProjectData) : ProjectData :=
  {| owner := owner self; repo := repo self; icon := icon self;
     repo_url := repo_url self;
     copier_version := copier_version self;
     copier_version_display_class := copier_version_display_class self;
     passing_workflows := n;
     failing_workflows := failing_workflows self;
     smoke_test := smoke_test self; build_docs := build_docs self;
     benchmarks := benchmarks self; live_build := live_build self;
     other_workflows := other_workflows self |}.

Definition assign_failing_workflows (n : Z) (self : ProjectData) : ProjectData :=
  {| owner := owner self; repo := repo self; icon := icon self;
     repo_url := repo_url self;
     copier_version := copier_version self;
     copier_version_display_class := copier_version_display_class self;
     passing_workflows := passing_workflows self;
     failing_workflows := n;
     smoke_test := smoke_test self; build_docs := build_docs self;
     benchmarks := benchmarks self; live_build := live_build self;
     other_workflows := other_workflows self |}.

(** [ProjectData.set_copier_version(self, this_version, template_version)]:
    the object after the call. [this_version] is [None] or a [Version]; a
    [Version] object is always truthy, so [not this_version] holds exactly
    for [None]. *)
Definition set_copier_version (this_version : option Version)
    (template_version : Version) (self : ProjectData) : ProjectData :=
  match this_version with
  | None => self
  | Some this_version =>
      let self := assign_copier_version (Version_str this_version) self in
      if Version_lt this_version template_version then
        assign_copier_version_display_class "yellow-cell" self
      else if Version_eq this_version template_version then
        assign_copier_version_display_class "green-cell" self
      else
        assign_copier_version_display_class "red-cell" self
  end.

(** ** Python values, exceptions and the object store *)

(** The values stored in the statistics dictionary. *)
Inductive pyval :=
  | PyInt (z : Z)
  | PyFloat (x : PrimFloat.float).

(** [ZeroDivisionError] is what [/] raises on a zero divisor. [InvalidReference]
    stands for a reference that names no object: no Python execution reaches
    it, it only makes the store lookups total. *)
Inductive exn := ZeroDivisionError | InvalidReference.

Record store := mkStore {
  workflows_of : gmap loc WorkflowElemData;
  projects_of : gmap loc ProjectData
}.

Inductive outcome (A : Type) :=
  | Return (a : A) (h : store)
  | Raise (e : exn).
Arguments Return {A} a h.
Arguments Raise {A} e.

(** Computations that read and update the store and may raise. *)
Definition M (A : Type) : Type := store → outcome A.

#[global] Instance M_ret : MRet M := λ A a h, Return a h.
#[global] Instance M_bind : MBind M := λ A B f m h,
  match m h with
  | Return a h' => f a h'
  | Raise e => Raise e
  end.

Definition raise {A} (e : exn) : M A := λ _, Raise e.

(** Dereference a workflow, as in [workflow.workflow_status]. *)
Definition read_workflow (l : loc) : M WorkflowElemData := λ h,
  match workflows_of h !! l with
  | Some w => Return w h
  | None => Raise InvalidReference
  end.

(** Dereference a project, as in [project.smoke_test]. *)
Definition read_project (l : loc) : M ProjectData := λ h,
  match projects_of h !! l with
  | Some p => Return p h
  | None => Raise InvalidReference
  end.

(** An attribute assignment [project.attr = value] on the object at [l]. *)
Definition assign_project (l : loc) (f : ProjectData → ProjectData) : M unit := λ h,
  match projects_of h !! l with
  | Some p =>
      Return tt {| workflows_of := workflows_of h;
                   projects_of := <[l := f p]> (projects_of h) |}
  | None => Raise InvalidReference
  end.

(** [for x in xs: body], threading the local variables [v]. *)
Fixpoint for_each {A V} (body : A → V → M V) (xs : list A) (v : V) : M V :=
  match xs with
  | [] => mret v
  | x :: xs => v ← body x v; for_each body xs v
  end.

(** ** Floating point *)

Definition float_of_sign_nat (s : bool) (n : Z) : SpecFloat.spec_float :=
  match n with
  | Zpos m => SpecFloat.S754_finite s m 0
  | _ => SpecFloat.S754_zero s
  end.

(** The binary64 number nearest to [a / b] (ties to even), for [b <> 0]:
    IEEE 754 division of the two integers taken as exact operands. *)
Definition nearest_quotient (a b : Z) : PrimFloat.float :=
  FloatOps.SF2Prim
    (SpecFloat.SFdiv FloatOps.prec FloatOps.emax
       (float_of_sign_nat (a <? 0) (Z.abs a))
       (float_of_sign_nat (b <? 0) (Z.abs b))).

(** [a / b] on two [int]s: true division, correctly rounded, raising on a
    zero divisor. (CPython also raises [OverflowError] when the quotient
    exceeds the range of a float; that case is not modelled.) *)
Definition py_truediv (a b : Z) : M PrimFloat.float :=
  if b =? 0 then raise ZeroDivisionError else mret (nearest_quotient a b).

(** [n] rounded to the nearest multiple of [2^k], halves to the even
    multiple, divided by [2^k]. *)
Definition shift_round_half_even (n : Z) (k : Z) : Z :=
  let d := 2 ^ k in
  let q := n / d in
  let r := n mod d in
  match 2 * r ?= d with
  | Lt => q
  | Gt => q + 1
  | Eq => if Z.even q then q else q + 1
  end.

(** [round(x, ndigits)] on a [float], for [ndigits >= 0]: CPython prints the
    exact value of [x] with [ndigits] decimals (ties to even) and reads the
    result back, so the result is the float nearest to that decimal. Zeros,
    infinities and NaN round to themselves. *)
Definition py_round_float (x : PrimFloat.float) (ndigits : Z) : PrimFloat.float :=
  match FloatOps.Prim2SF x with
  | SpecFloat.S754_finite s m e =>
      let n := Zpos m * 10 ^ ndigits in
      let q := if 0 <=? e then n * 2 ^ e else shift_round_half_even n (- e) in
      FloatOps.SF2Prim
        (SpecFloat.SFdiv FloatOps.prec FloatOps.emax
           (float_of_sign_nat s q)
           (float_of_sign_nat false (10 ^ ndigits)))
  | _ => x
  end.

(** [round(v, ndigits)]: an [int] rounds to itself for [ndigits >= 0]. *)
Definition py_round (v : pyval) (ndigits : Z) : pyval :=
  match v with
  | PyInt z => PyInt z
  | PyFloat x => PyFloat (py_round_float x ndigits)
  end.

(** ** calculate_statistics *)

(** The local variables of [calculate_statistics] that the loops update.
    [project_passing] and [project_failing] are unbound until the first
    project is visited; they are assigned before every read. *)
Record locals := mkLocals {
  passing_count : Z;
  failing_count : Z;
  stale_count : Z;
  pending_count : Z;
  total_workflows : Z;
  project_passing : Z;
  project_failing : Z
}.

(** The list [workflows] built for one project: the four named slots that
    are not [None], in this order, then [other_workflows]. A slot that is
    set holds a [WorkflowElemData], which defines neither [__bool__] nor
    [__len__] and is therefore truthy. *)
Definition build_workflows (project : ProjectData) : list loc :=
  let workflows := [] in
  let workflows :=
    match smoke_test project with Some w => workflows ++ [w] | None => workflows end in
  let workflows :=
    match build_docs project with Some w => workflows ++ [w] | None => workflows end in
  let workflows :=
    match benchmarks project with Some w => workflows ++ [w] | None => workflows end in
  let workflows :=
    match live_build project with Some w => workflows ++ [w] | None => workflows end in
  workflows ++ other_workflows project.

(** The body of [for workflow in workflows], once [workflow] is read. *)
Definition count_workflow (workflow : WorkflowElemData) (v : locals) : locals :=
  let total_workflows := total_workflows v + 1 in
  let '(passing_count, failing_count, pending_count, project_passing, project_failing) :=
    if String.eqb (workflow_status workflow) "success" then
      (passing_count v + 1, failing_count v, pending_count v,
       project_passing v + 1, project_failing v)
    else if String.eqb (workflow_status workflow) "failure" then
      (passing_count v, failing_count v + 1, pending_count v,
       project_passing v, project_failing v + 1)
    else if String.eqb (workflow_status workflow) "pending" then
      (passing_count v, failing_count v, pending_count v + 1,
       project_passing v, project_failing v)
    else
      (passing_count v, failing_count v, pending_count v,
       project_passing v, project_failing v) in
  let stale_count :=
    if is_stale workflow then stale_count v + 1 else stale_count v in
  {| passing_count := passing_count;
     failing_count := failing_count;
     stale_count := stale_count;
     pending_count := pending_count;
     total_workflows := total_workflows;
     project_passing := project_passing;
     project_failing := project_failing |}.

Definition workflow_body (workflow : loc) (v : locals) : M locals :=
  w ← read_workflow workflow;
  mret (count_workflow w v).

(** The assignments [project_passing = 0; project_failing = 0]. *)
Definition reset_project_tallies (v : locals) : locals :=
  {| passing_count := passing_count v;
     failing_count := failing_count v;
     stale_count := stale_count v;
     pending_count := pending_count v;
     total_workflows := total_workflows v;
     project_passing := 0;
     project_failing := 0 |}.

(** The body of [for project in all_projects]. *)
Definition project_body (project : loc) (v : locals) : M locals :=
  p ← read_project project;
  let workflows := build_workflows p in
  let v := reset_project_tallies v in
  v ← for_each workflow_body workflows v;
  _ ← assign_project project (assign_passing_workflows (project_passing v));
  _ ← assign_project project (assign_failing_workflows (project_failing v));
  mret v.

(** [round((count / total_workflows * 100) if total_workflows > 0 else 0, 1)] *)
Definition percent (count total_workflows : Z) : M pyval :=
  x ← (if 0 <? total_workflows
       then q ← py_truediv count total_workflows;
            mret (PyFloat (PrimFloat.mul q 100))
       else mret (PyInt 0));
  mret (py_round x 1).

Definition calculate_statistics (all_projects : list loc) : M (gmap string pyval) :=
  let v := {| passing_count := 0; failing_count := 0; stale_count := 0;
              pending_count := 0; total_workflows := 0;
              project_passing := 0; project_failing := 0 |} in
  v ← for_each project_body all_projects v;
  passing_percent ← percent (passing_count v) (total_workflows v);
  failing_percent ← percent (failing_count v) (total_workflows v);
  mret (<["passing_count" := PyInt (passing_count v)]>
        (<["failing_count" := PyInt (failing_count v)]>
        (<["stale_count" := PyInt (stale_count v)]>
        (<["pending_count" := PyInt (pending_count v)]>
        (<["total_workflows" := PyInt (total_workflows v)]>
        (<["passing_percent" := passing_percent]>
        (<["failing_percent" := failing_percent]>
        (<["repo_count" := PyInt (Z.of_nat (length all_projects))]> ∅)))))))).

(** ** The sample fleet of [test_enhanced_dashboard.py] *)

Definition sample_workflow (name repo status time : string) (stale : bool)
    : WorkflowElemData :=
  set_status status time stale
    (WorkflowElemData_init name ("https://github.com/test-org/" +:+ repo)
       "test-org" repo "").

Definition with_slots (smoke docs : option loc) (p : ProjectData) : ProjectData :=
  {| owner := owner p; repo := repo p; icon := icon p; repo_url := repo_url p;
     copier_version := copier_version p;
     copier_version_display_class := copier_version_display_class p;
     passing_workflows := passing_workflows p;
     failing_workflows := failing_workflows p;
     smoke_test := smoke; build_docs := docs;
     benchmarks := benchmarks p; live_build := live_build p;
     other_workflows := other_workflows p |}.

Definition sample_store : store :=
  {| workflows_of :=
       <[11%positive := sample_workflow "smoke.yml" "repo1" "success" "1 hour ago" false]>
       (<[12%positive := sample_workflow "docs.yml" "repo1" "success" "2 hours ago" false]>
       (<[21%positive := sample_workflow "smoke.yml" "repo2" "failure" "30 minutes ago" false]>
       (<[22%positive := sample_workflow "docs.yml" "repo2" "success" "1 day ago" true]>
       (<[31%positive :=
            WorkflowElemData_init "smoke.yml" "https://github.com/test-org/repo3"
              "test-org" "repo3" ""]> ∅))));
     projects_of :=
       <[1%positive := with_slots (Some 11%positive) (Some 12%positive)
                         (ProjectData_init "test-org" "repo1")]>
       (<[2%positive := with_slots (Some 21%positive) (Some 22%positive)
                          (ProjectData_init "test-org" "repo2")]>
       (<[3%positive := with_slots (Some 31%positive) None
                          (ProjectData_init "test-org" "repo3")]> ∅)) |}.

Definition sample_projects : list loc := [1%positive; 2%positive; 3%positive].

(** One project whose only workflow is successful and stale. *)
Definition stale_success_store : store :=
  {| workflows_of :=
       {[ 1%positive := sample_workflow "docs.yml" "repo2" "success" "1 day ago" true ]};
     projects_of :=
       {[ 1%positive := with_slots None (Some 1%positive)
                          (ProjectData_init "test-org" "repo2") ]} |}.

(** One project with a successful workflow and one whose status is the
    provider value "cancelled". *)
Definition unknown_status_store : store :=
  {| workflows_of :=
       <[1%positive := sample_workflow "smoke.yml" "repo1" "success" "1 hour ago" false]>
       {[ 2%positive := sample_workflow "docs.yml" "repo1" "cancelled" "1 hour ago" false ]};
     projects_of :=
       {[ 1%positive := with_slots (Some 1%positive) (Some 2%positive)
                          (ProjectData_init "test-org" "repo1") ]} |}.

(** ** What the statistics are measured against *)

(** The workflow objects a list of references denotes. *)
Definition deref (h : store) (ws : list loc) : list WorkflowElemData :=
  omap (λ l, workflows_of h !! l) ws.

(** The named slots of a project that are present, in their fixed order. *)
Definition present_slots (p : ProjectData) : list loc :=
  option_list (smoke_test p) ++ option_list (build_docs p)
  ++ option_list (benchmarks p) ++ option_list (live_build p).

(** The effective workflow set: present named slots, then the other workflows. *)
Definition effective_set (p : ProjectData) : list loc :=
  present_slots p ++ other_workflows p.

(** The workflows of the project at [l]. *)
Definition project_workflows (h : store) (l : loc) : list WorkflowElemData :=
  match projects_of h !! l with
  | Some p => deref h (effective_set p)
  | None => []
  end.

(** Every workflow of every listed project, one entry per occurrence. *)
Definition fleet_workflows (h : store) (ps : list loc) : list WorkflowElemData :=
  concat (map (project_workflows h) ps).

Definition count_status (status : string) (ws : list WorkflowElemData) : Z :=
  Z.of_nat (length (filter (λ w, workflow_status w = status) ws)).

Definition count_stale (ws : list WorkflowElemData) : Z :=
  Z.of_nat (length (filter (λ w, is_stale w = true) ws)).

(** A status outside the three named buckets. *)
Definition unknown_status (w : WorkflowElemData) : Prop :=
  workflow_status w ≠ "success" ∧ workflow_status w ≠ "failure"
  ∧ workflow_status w ≠ "pending".

#[global] Instance unknown_status_dec w : Decision (unknown_status w).
Proof. unfold unknown_status. apply _. Defined.

(** Number of workflows the project at [l] declares. *)
Definition declared_workflows (h : store) (l : loc) : Z :=
  match projects_of h !! l with
  | Some p => Z.of_nat (length (present_slots p) + length (other_workflows p))
  | None => 0
  end.

Definition sum_Z (zs : list Z) : Z := foldr Z.add 0 zs.

(** Every listed reference names a project, and every workflow reference of
    such a project names a workflow: what holds of any list of live objects. *)
Definition valid_project (h : store) (l : loc) : bool :=
  match projects_of h !! l with
  | Some p =>
      forallb (λ w, bool_decide (is_Some (workflows_of h !! w))) (build_workflows p)
  | None => false
  end.

Definition valid_refs (h : store) (ps : list loc) : bool :=
  forallb (valid_project h) ps.

(** Two project records that differ at most in the two counters. *)
Definition same_but_counters (p p' : ProjectData) : Prop :=
  owner p' = owner p ∧ repo p' = repo p ∧ icon p' = icon p
  ∧ repo_url p' = repo_url p
  ∧ copier_version p' = copier_version p
  ∧ copier_version_display_class p' = copier_version_display_class p
  ∧ smoke_test p' = smoke_test p ∧ build_docs p' = build_docs p
  ∧ benchmarks p' = benchmarks p ∧ live_build p' = live_build p
  ∧ other_workflows p' = other_workflows p.

(** [round(count / total * 100, 1)] if [total > 0], else the integer [0]. *)
Definition percent_value (count total : Z) : pyval :=
  if 0 <? total
  then PyFloat (py_round_float
                  (PrimFloat.mul (nearest_quotient count total) 100) 1)
  else PyInt 0.

(** The inner loop as a fold over the workflow objects. *)
Definition count_workflows (ws : list WorkflowElemData) (v : locals) : locals :=
  foldl (λ v w, count_workflow w v) v ws.

(** The store relation kept by the outer loop: the workflows are the same
    objects, and each project differs at most in its counters. *)
Definition same_shape (h0 h : store) : Prop :=
  workflows_of h = workflows_of h0
  ∧ ∀ l, option_Forall2 same_but_counters (projects_of h0 !! l) (projects_of h !! l).

(** The counters stored on the project at [l] match its own workflows. *)
Definition tallied (h : store) (l : loc) : Prop :=
  ∃ p, projects_of h !! l = Some p
    ∧ passing_workflows p = count_status "success" (project_workflows h l)
    ∧ failing_workflows p = count_status "failure" (project_workflows h l).

(** The dictionary [calculate_statistics] is expected to return, written
    from the counts over the fleet. *)
Definition statistics_of (h : store) (ps : list loc) : gmap string pyval :=
  let ws := fleet_workflows h ps in
  let total := Z.of_nat (length ws) in
  <["passing_count" := PyInt (count_status "success" ws)]>
  (<["failing_count" := PyInt (count_status "failure" ws)]>
  (<["stale_count" := PyInt (count_stale ws)]>
  (<["pending_count" := PyInt (count_status "pending" ws)]>
  (<["total_workflows" := PyInt total]>
  (<["passing_percent" := percent_value (count_status "success" ws) total]>
  (<["failing_percent" := percent_value (count_status "failure" ws) total]>
  (<["repo_count" := PyInt (Z.of_nat (length ps))]> ∅))))))).

(** The dictionary of an empty fleet. *)
Definition zero_statistics : gmap string pyval :=
  <["passing_count" := PyInt 0]>
  (<["failing_count" := PyInt 0]>
  (<["stale_count" := PyInt 0]>
  (<["pending_count" := PyInt 0]>
  (<["total_workflows" := PyInt 0]>
  (<["passing_percent" := PyInt 0]>
  (<["failing_percent" := PyInt 0]>
  (<["repo_count" := PyInt 0]> ∅))))))).

(** ** Version precedence and decimal rounding, stated independently *)

(** The precedence of semantic versioning, written out: the major numbers
    decide, then the minor numbers, then the patch numbers. *)
Definition semver_precedes (a b : Version) : Prop :=
  (major a < major b)%N
  ∨ (major a = major b
     ∧ ((minor a < minor b)%N ∨ (minor a = minor b ∧ (patch a < patch b)%N))).

(** [k] is the integer nearest to [n * 2^e], the even one of the two when
    [n * 2^e] lies halfway between them. With [d = 2^(-e)] for a negative
    [e], the distance is compared after scaling by [d]. *)
Definition nearest_integer (n e k : Z) : Prop :=
  let d := 2 ^ Z.max (- e) 0 in
  let v := n * 2 ^ Z.max e 0 in
  0 <= k
  ∧ 2 * Z.abs (v - k * d) <= d
  ∧ (2 * Z.abs (v - k * d) = d → Z.even k = true).

(** [r] is [x] rounded to one decimal: for a finite [x] of magnitude
    [m * 2^e], [r] has the sign of [x] and is the float nearest to [k / 10],
    with [k] the integer nearest to [10 * m * 2^e]; any other [x] is its own
    rounding. *)
Definition rounded_to_one_decimal (x r : PrimFloat.float) : Prop :=
  match FloatOps.Prim2SF x with
  | SpecFloat.S754_finite s m e =>
      ∃ k, nearest_integer (10 * Zpos m) e k
        ∧ r = if k =? 0 then (if s then PrimFloat.neg_zero else PrimFloat.zero)
              else nearest_quotient (if s then - k else k) 10
  | _ => r = x
  end.

(** ** Further measures used by the additional properties *)

(** An integer entry of the statistics dictionary. *)
Definition stat_int (stats : gmap string pyval) (key : string) : option Z :=
  match stats !! key with
  | Some (PyInt z) => Some z
  | _ => None
  end.

(** The keys of the statistics dictionary whose entries are counts. *)
Definition count_keys : list string :=
  ["passing_count"; "failing_count"; "stale_count"; "pending_count";
   "total_workflows"; "repo_count"].

(** A counter of the project at [l], read from the store. *)
Definition project_counter (f : ProjectData → Z) (h : store) (l : loc) : Z :=
  match projects_of h !! l with
  | Some p => f p
  | None => 0
  end.

(** The status of the last call of a run that was "success" or "failure",
    starting from [acc]. *)
Definition last_decisive (acc : option string)
    (calls : list (string * string * bool)) : option string :=
  foldl (λ acc '(status, _, _),
           if String.eqb status "success" || String.eqb status "failure"
           then Some status else acc) acc calls.

(** A run of [set_copier_version] calls on one object, first call first;
    each call gives this-version and the template version. *)
Definition set_copier_version_calls (calls : list (option Version * Version))
    (self : ProjectData) : ProjectData :=
  foldl (λ p '(this_version, template_version),
           set_copier_version this_version template_version p) self calls.

(** The last call of a run that passed a version, starting from [acc]. *)
Definition last_versioned (acc : option (Version * Version))
    (calls : list (option Version * Version)) : option (Version * Version) :=
  foldl (λ acc '(this_version, template_version),
           match this_version with
           | Some v => Some (v, template_version)
           | None => acc
           end) acc calls.

(** [sub in s]: some suffix of [s] starts with [sub]. *)
Fixpoint str_contains (sub s : string) : bool :=
  String.prefix sub s
  || match s with
     | EmptyString => false
     | String _ rest => str_contains sub rest
     end.

(** ** read_yaml_file *)

(** One entry of [repos] in the parsed YAML: a mapping in which each of the
    keys the loader reads is absent ([None]) or present with a value of the
    documented type (a string; a list of strings for [other_workflows]).
    The fields are the keys "owner", "repo", "smoke-test", "build-docs",
    "benchmarks", "live-build" and "other_workflows". *)
Record repo_item := mkRepoItem {
  item_owner : option string;
  item_repo : option string;
  item_smoke_test : option string;
  item_build_docs : option string;
  item_benchmarks : option string;
  item_live_build : option string;
  item_other_workflows : option (list string)
}.

(** The parsed YAML document: the top-level keys the loader reads, each
    absent or present. The entries of [extra_links] are passed through as
    they are, so their type is left open. *)
Record yaml_data (Link : Type) := mkYamlData {
  data_page_title : option string;
  data_extra_links : option (list Link);
  data_copier_project : option string;
  data_repos : option (list repo_item)
}.
Arguments data_page_title {Link} _.
Arguments data_extra_links {Link} _.
Arguments data_copier_project {Link} _.
Arguments data_repos {Link} _.

(** The values of the dictionary [read_yaml_file] returns. *)
Inductive config_value (Link : Type) :=
  | CNone
  | CStr (s : string)
  | CBool (b : bool)
  | CProjects (ps : list loc)
  | CLinks (links : list Link).
Arguments CNone {Link}.
Arguments CStr {Link} s.
Arguments CBool {Link} b.
Arguments CProjects {Link} ps.
Arguments CLinks {Link} links.

(** The outcome of loading: the value and the store with the new objects, or
    the [KeyError] of a subscript [item[key]] on a missing key. *)
Inductive load_outcome (A : Type) :=
  | Loaded (a : A) (h : store)
  | KeyError (key : string).
Arguments Loaded {A} a h.
Arguments KeyError {A} key.

(** A constructor call [WorkflowElemData(...)]: the new object is stored at
    a reference that names no workflow yet. *)
Definition new_workflow (w : WorkflowElemData) (h : store) : loc * store :=
  let l := fresh (dom (workflows_of h)) in
  (l, {| workflows_of := <[l := w]> (workflows_of h);
         projects_of := projects_of h |}).

(** Storing a [ProjectData] object at a reference that names no project yet. *)
Definition new_project (p : ProjectData) (h : store) : loc * store :=
  let l := fresh (dom (projects_of h)) in
  (l, {| workflows_of := workflows_of h;
         projects_of := <[l := p]> (projects_of h) |}).

Definition assign_smoke_test (w : option loc) (self : ProjectData) : ProjectData :=
  {| owner := owner self; repo := repo self; icon := icon self;
     repo_url := repo_url self;
     copier_version := copier_version self;
     copier_version_display_class := copier_version_display_class self;
     passing_workflows := passing_workflows self;
     failing_workflows := failing_workflows self;
     smoke_test := w; build_docs := build_docs self;
     benchmarks := benchmarks self; live_build := live_build self;
     other_workflows := other_workflows self |}.

Definition assign_build_docs (w : option loc) (self : ProjectData) : ProjectData :=
  {| owner := owner self; repo := repo self; icon := icon self;
     repo_url := repo_url self;
     copier_version := copier_version self;
     copier_version_display_class := copier_version_display_class self;
     passing_workflows := passing_workflows self;
     failing_workflows := failing_workflows self;
     smoke_test := smoke_test self; build_docs := w;
     benchmarks := benchmarks self; live_build := live_build self;
     other_workflows := other_workflows self |}.

Definition assign_benchmarks (w : option loc) (self : ProjectData) : ProjectData :=
  {| owner := owner self; repo := repo self; icon := icon self;
     repo_url := repo_url self;
     copier_version := copier_version self;
     copier_version_display_class := copier_version_display_class self;
     passing_workflows := passing_workflows self;
     failing_workflows := failing_workflows self;
     smoke_test := smoke_test self; build_docs := build_docs self;
     benchmarks := w; live_build := live_build self;
     other_workflows := other_workflows self |}.

Definition assign_live_build (w : option loc) (self : ProjectData) : ProjectData :=
  {| owner := owner self; repo := repo self; icon := icon self;
     repo_url := repo_url self;
     copier_version := copier_version self;
     copier_version_display_class := copier_version_display_class self;
     passing_workflows := passing_workflows self;
     failing_workflows := failing_workflows self;
     smoke_test := smoke_test self; build_docs := build_docs self;
     benchmarks := benchmarks self; live_build := w;
     other_workflows := other_workflows self |}.

(** [project_data.other_workflows.append(w)] *)
Definition append_other_workflow (w : loc) (self : ProjectData) : ProjectData :=
  {| owner := owner self; repo := repo self; icon := icon self;
     repo_url := repo_url self;
     copier_version := copier_version self;
     copier_version_display_class := copier_version_display_class self;
     passing_workflows := passing_workflows self;
     failing_workflows := failing_workflows self;
     smoke_test := smoke_test self; build_docs := build_docs self;
     benchmarks := benchmarks self; live_build := live_build self;
     other_workflows := other_workflows self ++ [w] |}.

(** The local variables of [read_yaml_file] that its loop updates. *)
Record load_locals := mkLoadLocals {
  all_projects : list loc;
  contains_other : bool;
  contains_smoke : bool;
  contains_bench : bool;
  contains_docs : bool;
  contains_live : bool
}.

(** One of the four blocks [if key in item: project_data.slot =
    WorkflowElemData(item[key], ...); contains_slot = True], with [assign]
    the assignment to the slot. The project under construction is referenced
    only by the local variable [project_data] until it is appended to
    [all_projects], so it is carried as a value and stored then. *)
Definition load_slot (name : option string) (owner repo branch : string)
    (assign : option loc → ProjectData → ProjectData)
    (project_data : ProjectData) (contains : bool) (h : store)
    : ProjectData * bool * store :=
  match name with
  | Some name =>
      let '(w, h) :=
        new_workflow
          (WorkflowElemData_init name (repo_url project_data) owner repo branch) h in
      (assign (Some w) project_data, true, h)
  | None => (project_data, contains, h)
  end.

(** [for name in item["other_workflows"]: project_data.other_workflows.append(...)] *)
Fixpoint load_other_workflows (names : list string) (owner repo : string)
    (project_data : ProjectData) (h : store) : ProjectData * store :=
  match names with
  | [] => (project_data, h)
  | name :: names =>
      let '(w, h) :=
        new_workflow
          (WorkflowElemData_init name (repo_url project_data) owner repo "") h in
      load_other_workflows names owner repo (append_other_workflow w project_data) h
  end.

(** The body of [for item in repos]. *)
Definition load_item (item : repo_item) (v : load_locals) (h : store)
    : load_outcome load_locals :=
  match item_owner item with
  | None => KeyError "owner"
  | Some owner =>
  match item_repo item with
  | None => KeyError "repo"
  | Some repo =>
      let project_data := ProjectData_init owner repo in
      let '(project_data, contains_smoke, h) :=
        load_slot (item_smoke_test item) owner repo "" assign_smoke_test
          project_data (contains_smoke v) h in
      let '(project_data, contains_docs, h) :=
        load_slot (item_build_docs item) owner repo "" assign_build_docs
          project_data (contains_docs v) h in
      let '(project_data, contains_bench, h) :=
        load_slot (item_benchmarks item) owner repo "" assign_benchmarks
          project_data (contains_bench v) h in
      let '(project_data, contains_live, h) :=
        load_slot (item_live_build item) owner repo "main" assign_live_build
          project_data (contains_live v) h in
      let '(project_data, contains_other, h) :=
        match item_other_workflows item with
        | Some names =>
            let '(project_data, h) :=
              load_other_workflows names owner repo project_data h in
            (project_data, true, h)
        | None => (project_data, contains_other v, h)
        end in
      let '(project, h) := new_project project_data h in
      Loaded {| all_projects := all_projects v ++ [project];
                contains_other := contains_other;
                contains_smoke := contains_smoke;
                contains_bench := contains_bench;
                contains_docs := contains_docs;
                contains_live := contains_live |} h
  end end.

Fixpoint load_repos (repos : list repo_item) (v : load_locals) (h : store)
    : load_outcome load_locals :=
  match repos with
  | [] => Loaded v h
  | item :: repos =>
      match load_item item v h with
      | Loaded v h => load_repos repos v h
      | KeyError key => KeyError key
      end
  end.

(** [read_yaml_file(file_path)], with the file given by its parsed content
    [data] (what [yaml.safe_load] returns) and the clock by [last_updated],
    the formatted current time. [data] is a mapping whose collections can be
    iterated; [read_yaml_document] below takes any parsed document and has
    the [TypeError] and [AttributeError] outcomes of the others. *)
Definition read_yaml_file {Link} (data : yaml_data Link) (last_updated : string)
    (h : store) : load_outcome (gmap string (config_value Link)) :=
  let page_title := data_page_title data in
  let extra_links := default [] (data_extra_links data) in
  let copier_project :=
    default "lincc-frameworks/python-project-template" (data_copier_project data) in
  let repos := default [] (data_repos data) in
  let v := {| all_projects := []; contains_other := false; contains_smoke := false;
              contains_bench := false; contains_docs := false;
              contains_live := false |} in
  match load_repos repos v h with
  | KeyError key => KeyError key
  | Loaded v h =>
      Loaded
        (<["page_title" := from_option CStr CNone page_title]>
         (<["all_projects" := CProjects (all_projects v)]>
         (<["contains_other" := CBool (contains_other v)]>
         (<["contains_smoke" := CBool (contains_smoke v)]>
         (<["contains_docs" := CBool (contains_docs v)]>
         (<["contains_bench" := CBool (contains_bench v)]>
         (<["contains_live" := CBool (contains_live v)]>
         (<["dash_name" := CStr "LINCC Frameworks Builds"]>
         (<["dash_repo" := CStr "lf-workflow-dash"]>
         (<["last_updated" := CStr last_updated]>
         (<["extra_links" := CLinks extra_links]>
         (<["copier_project" := CStr copier_project]> ∅)))))))))))) h
  end.

(** The first key whose absence stops the loading, if any. *)
Fixpoint first_missing_key (repos : list repo_item) : option string :=
  match repos with
  | [] => None
  | item :: repos =>
      match item_owner item, item_repo item with
      | None, _ => Some "owner"
      | Some _, None => Some "repo"
      | Some _, Some _ => first_missing_key repos
      end
  end.

(** [h'] has every object of [h], unchanged. *)
Definition store_extends (h h' : store) : Prop :=
  workflows_of h ⊆ workflows_of h' ∧ projects_of h ⊆ projects_of h'.

(** The workflows of [h'] are those of [h] and new ones at the distinct
    references [news]. *)
Definition allocated (h h' : store) (news : list loc) : Prop :=
  workflows_of h ⊆ workflows_of h'
  ∧ NoDup news
  ∧ (∀ l, l ∈ news → workflows_of h !! l = None)
  ∧ (∀ l, is_Some (workflows_of h' !! l) ↔ l ∈ news ∨ is_Some (workflows_of h !! l)).

(** The workflow at [l] is the freshly constructed one for [name]. *)
Definition names_workflow (h : store) (owner repo branch : string)
    (l : loc) (name : string) : Prop :=
  workflows_of h !! l
  = Some (WorkflowElemData_init name ("https://github.com/" +:+ owner +:+ "/" +:+ repo)
            owner repo branch).

(** The project at [l] is what the loader builds for [item]. *)
Definition loaded_from (h : store) (item : repo_item) (l : loc) : Prop :=
  ∃ p owner' repo',
    item_owner item = Some owner' ∧ item_repo item = Some repo'
    ∧ projects_of h !! l = Some p
    ∧ owner p = owner' ∧ repo p = repo' ∧ icon p = ""
    ∧ repo_url p = "https://github.com/" +:+ owner' +:+ "/" +:+ repo'
    ∧ copier_version p = "" ∧ copier_version_display_class p = "yellow-cell"
    ∧ passing_workflows p = 0 ∧ failing_workflows p = 0
    ∧ option_Forall2 (names_workflow h owner' repo' "") (smoke_test p) (item_smoke_test item)
    ∧ option_Forall2 (names_workflow h owner' repo' "") (build_docs p) (item_build_docs item)
    ∧ option_Forall2 (names_workflow h owner' repo' "") (benchmarks p) (item_benchmarks item)
    ∧ option_Forall2 (names_workflow h owner' repo' "main") (live_build p) (item_live_build item)
    ∧ Forall2 (names_workflow h owner' repo' "") (other_workflows p)
        (default [] (item_other_workflows item)).

(** The workflow references held by the projects at [ps]. *)
Definition workflow_refs (h : store) (ps : list loc) : list loc :=
  concat (map (λ l, from_option effective_set [] (projects_of h !! l)) ps).

(** A key of the mapping is present. *)
Definition present {A} (o : option A) : bool :=
  match o with Some _ => true | None => false end.

(** [ws] appended to [other_workflows]. *)
Definition append_other_workflows (ws : list loc) (self : ProjectData) : ProjectData :=
  {| owner := owner self; repo := repo self; icon := icon self;
     repo_url := repo_url self;
     copier_version := copier_version self;
     copier_version_display_class := copier_version_display_class self;
     passing_workflows := passing_workflows self;
     failing_workflows := failing_workflows self;
     smoke_test := smoke_test self; build_docs := build_docs self;
     benchmarks := benchmarks self; live_build := live_build self;
     other_workflows := other_workflows self ++ ws |}.

(** A workflow as the constructor leaves it. *)
Definition untouched (w : WorkflowElemData) : Prop :=
  workflow_status w = "pending" ∧ is_stale w = false
  ∧ display_class w = "yellow-cell" ∧ icon_class w = "fa-solid fa-circle-question".

(** A store without objects. *)
Definition empty_store : store := {| workflows_of := ∅; projects_of := ∅ |}.

(** A parsed configuration with one entry that has every key and one that
    has only the required keys and an empty [other_workflows] list. *)
Definition sample_config : yaml_data string :=
  {| data_page_title := Some "LINCC Frameworks";
     data_extra_links := None;
     data_copier_project := None;
     data_repos := Some
       [ {| item_owner := Some "lincc-frameworks"; item_repo := Some "tape";
            item_smoke_test := Some "smoke-test.yml";
            item_build_docs := Some "build-documentation.yml";
            item_benchmarks := Some "asv-main.yml";
            item_live_build := Some "testing-and-coverage.yml";
            item_other_workflows := Some ["pre-commit-ci.yml"; "publish-to-pypi.yml"] |};
         {| item_owner := Some "lincc-frameworks"; item_repo := Some "hipscat";
            item_smoke_test := None; item_build_docs := None;
            item_benchmarks := None; item_live_build := None;
            item_other_workflows := Some [] |} ] |}.

(** ** Loaded objects, field by field *)

(** The workflow at [l] as the loader leaves it for the workflow file [name]
    of [owner]/[repo]: every field written out. *)
Definition workflow_as_configured (h : store) (owner' repo' branch' : string)
    (l : loc) (name : string) : Prop :=
  ∃ w, workflows_of h !! l = Some w
    ∧ workflow_name w = name
    ∧ workflow_url w
      = "https://github.com/" +:+ owner' +:+ "/" +:+ repo'
        +:+ "/actions/workflows/" +:+ name
    ∧ wf_owner w = owner' ∧ wf_repo w = repo' ∧ branch w = branch'
    ∧ workflow_status w = "pending"
    ∧ display_class w = "yellow-cell"
    ∧ icon_class w = "fa-solid fa-circle-question"
    ∧ conclusion_time w = "" ∧ conclusion_time_one_line w = ""
    ∧ is_stale w = false ∧ friendly_name w = "".

(** The project at [l] as the loader leaves it for [item]: every field
    written out, each slot set exactly when its key is present. *)
Definition project_as_configured (h : store) (item : repo_item) (l : loc) : Prop :=
  ∃ p owner' repo',
    item_owner item = Some owner' ∧ item_repo item = Some repo'
    ∧ projects_of h !! l = Some p
    ∧ owner p = owner' ∧ repo p = repo' ∧ icon p = ""
    ∧ repo_url p = "https://github.com/" +:+ owner' +:+ "/" +:+ repo'
    ∧ copier_version p = "" ∧ copier_version_display_class p = "yellow-cell"
    ∧ passing_workflows p = 0 ∧ failing_workflows p = 0
    ∧ option_Forall2 (workflow_as_configured h owner' repo' "")
        (smoke_test p) (item_smoke_test item)
    ∧ option_Forall2 (workflow_as_configured h owner' repo' "")
        (build_docs p) (item_build_docs item)
    ∧ option_Forall2 (workflow_as_configured h owner' repo' "")
        (benchmarks p) (item_benchmarks item)
    ∧ option_Forall2 (workflow_as_configured h owner' repo' "main")
        (live_build p) (item_live_build item)
    ∧ Forall2 (workflow_as_configured h owner' repo' "")
        (other_workflows p) (default [] (item_other_workflows item)).

(** ** read_yaml_file on any parsed document *)

(** What [yaml.safe_load] can put where the loader expects a collection.
    Under "other_workflows": the key is absent, or its value cannot be
    iterated (null, a number, a boolean), or iterating it yields names (a
    sequence of strings; a string yields its characters). *)
Inductive other_workflows_value :=
  | OtherAbsent
  | OtherNotIterable
  | OtherNames (names : list string).

(** An entry of [repos] that is a mapping: the four string keys absent or
    present, and the value under "other_workflows". *)
Record raw_item := mkRawItem {
  raw_owner : option string;
  raw_repo : option string;
  raw_smoke_test : option string;
  raw_build_docs : option string;
  raw_benchmarks : option string;
  raw_live_build : option string;
  raw_other_workflows : other_workflows_value
}.

(** An entry of [repos]: a mapping, or a value that is none (a string, a
    number, null, a sequence), on which [item["owner"]] raises [TypeError]. *)
Inductive raw_entry :=
  | EntryNotMapping
  | EntryMapping (item : raw_item).

(** The value under "repos": absent, not iterable (null, a number, a
    boolean), or a run of entries. *)
Inductive repos_value :=
  | ReposAbsent
  | ReposNotIterable
  | ReposEntries (entries : list raw_entry).

(** The top-level mapping of a document. *)
Record raw_data (Link : Type) := mkRawData {
  raw_page_title : option string;
  raw_extra_links : option (list Link);
  raw_copier_project : option string;
  raw_repos : repos_value
}.
Arguments raw_page_title {Link} _.
Arguments raw_extra_links {Link} _.
Arguments raw_copier_project {Link} _.
Arguments raw_repos {Link} _.

(** What [yaml.safe_load] returns: a mapping, or anything else ([None] for an
    empty file, a sequence, a scalar), which has no [get] method. *)
Inductive yaml_document (Link : Type) :=
  | DocNotMapping
  | DocMapping (data : raw_data Link).
Arguments DocNotMapping {Link}.
Arguments DocMapping {Link} data.

(** The exceptions the loader raises on a parsed document. *)
Inductive load_error :=
  | LoadKeyError (key : string)
  | LoadTypeError
  | LoadAttributeError.

Inductive document_outcome (A : Type) :=
  | DocLoaded (a : A) (h : store)
  | DocRaise (e : load_error).
Arguments DocLoaded {A} a h.
Arguments DocRaise {A} e.

(** The body of [for item in repos] for an entry that is a mapping. *)
Definition load_raw_item (item : raw_item) (v : load_locals) (h : store)
    : document_outcome load_locals :=
  match raw_owner item with
  | None => DocRaise (LoadKeyError "owner")
  | Some owner =>
  match raw_repo item with
  | None => DocRaise (LoadKeyError "repo")
  | Some repo =>
      let project_data := ProjectData_init owner repo in
      let '(project_data, contains_smoke, h) :=
        load_slot (raw_smoke_test item) owner repo "" assign_smoke_test
          project_data (contains_smoke v) h in
      let '(project_data, contains_docs, h) :=
        load_slot (raw_build_docs item) owner repo "" assign_build_docs
          project_data (contains_docs v) h in
      let '(project_data, contains_bench, h) :=
        load_slot (raw_benchmarks item) owner repo "" assign_benchmarks
          project_data (contains_bench v) h in
      let '(project_data, contains_live, h) :=
        load_slot (raw_live_build item) owner repo "main" assign_live_build
          project_data (contains_live v) h in
      let append_project project_data contains_other h :=
        let '(project, h) := new_project project_data h in
        DocLoaded {| all_projects := all_projects v ++ [project];
                     contains_other := contains_other;
                     contains_smoke := contains_smoke;
                     contains_bench := contains_bench;
                     contains_docs := contains_docs;
                     contains_live := contains_live |} h in
      match raw_other_workflows item with
      | OtherAbsent => append_project project_data (contains_other v) h
      | OtherNotIterable => DocRaise LoadTypeError
      | OtherNames names =>
          let '(project_data, h) :=
            load_other_workflows names owner repo project_data h in
          append_project project_data true h
      end
  end end.

Fixpoint load_raw_entries (entries : list raw_entry) (v : load_locals) (h : store)
    : document_outcome load_locals :=
  match entries with
  | [] => DocLoaded v h
  | EntryNotMapping :: _ => DocRaise LoadTypeError
  | EntryMapping item :: entries =>
      match load_raw_item item v h with
      | DocLoaded v h => load_raw_entries entries v h
      | DocRaise e => DocRaise e
      end
  end.

(** [read_yaml_file(file_path)] on whatever [yaml.safe_load] returned for the
    file, with [last_updated] the formatted current time. *)
Definition read_yaml_document {Link} (document : yaml_document Link)
    (last_updated : string) (h : store)
    : document_outcome (gmap string (config_value Link)) :=
  match document with
  | DocNotMapping => DocRaise LoadAttributeError
  | DocMapping data =>
      let page_title := raw_page_title data in
      let extra_links := default [] (raw_extra_links data) in
      let copier_project :=
        default "lincc-frameworks/python-project-template" (raw_copier_project data) in
      let v := {| all_projects := []; contains_other := false;
                  contains_smoke := false; contains_bench := false;
                  contains_docs := false; contains_live := false |} in
      match
        match raw_repos data with
        | ReposAbsent => DocLoaded v h
        | ReposNotIterable => DocRaise LoadTypeError
        | ReposEntries entries => load_raw_entries entries v h
        end
      with
      | DocRaise e => DocRaise e
      | DocLoaded v h =>
          DocLoaded
            (<["page_title" := from_option CStr CNone page_title]>
             (<["all_projects" := CProjects (all_projects v)]>
             (<["contains_other" := CBool (contains_other v)]>
             (<["contains_smoke" := CBool (contains_smoke v)]>
             (<["contains_docs" := CBool (contains_docs v)]>
             (<["contains_bench" := CBool (contains_bench v)]>
             (<["contains_live" := CBool (contains_live v)]>
             (<["dash_name" := CStr "LINCC Frameworks Builds"]>
             (<["dash_repo" := CStr "lf-workflow-dash"]>
             (<["last_updated" := CStr last_updated]>
             (<["extra_links" := CLinks extra_links]>
             (<["copier_project" := CStr copier_project]> ∅)))))))))))) h
      end
  end.

(** The exception the first faulty entry causes, if any entry is faulty: a
    non-mapping entry [TypeError]; a mapping without "owner", or else without
    "repo", the [KeyError] of that key; a mapping with both whose
    "other_workflows" cannot be iterated [TypeError]. *)
Fixpoint first_entry_error (entries : list raw_entry) : option load_error :=
  match entries with
  | [] => None
  | EntryNotMapping :: _ => Some LoadTypeError
  | EntryMapping item :: entries =>
      match raw_owner item, raw_repo item, raw_other_workflows item with
      | None, _, _ => Some (LoadKeyError "owner")
      | Some _, None, _ => Some (LoadKeyError "repo")
      | Some _, Some _, OtherNotIterable => Some LoadTypeError
      | Some _, Some _, _ => first_entry_error entries
      end
  end.

(** The exception a document causes, if any. *)
Definition document_error {Link} (document : yaml_document Link) : option load_error :=
  match document with
  | DocNotMapping => Some LoadAttributeError
  | DocMapping data =>
      match raw_repos data with
      | ReposAbsent => None
      | ReposNotIterable => Some LoadTypeError
      | ReposEntries entries => first_entry_error entries
      end
  end.

(** A mapping entry as a [repo_item], for an iterable "other_workflows". *)
Definition typed_item (item : raw_item) : repo_item :=
  {| item_owner := raw_owner item; item_repo := raw_repo item;
     item_smoke_test := raw_smoke_test item;
     item_build_docs := raw_build_docs item;
     item_benchmarks := raw_benchmarks item;
     item_live_build := raw_live_build item;
     item_other_workflows :=
       match raw_other_workflows item with
       | OtherNames names => Some names
       | _ => None
       end |}.

Definition typed_entries (entries : list raw_entry) : list repo_item :=
  omap (λ entry, match entry with
                 | EntryMapping item => Some (typed_item item)
                 | EntryNotMapping => None
                 end) entries.

(** The entries the loader iterates over. *)
Definition document_entries {Link} (document : yaml_document Link) : list raw_entry :=
  match document with
  | DocMapping data =>
      match raw_repos data with
      | ReposEntries entries => entries
      | _ => []
      end
  | DocNotMapping => []
  end.

(** A document as a [yaml_data], for a document without faulty parts. *)
Definition typed_data {Link} (document : yaml_document Link) : yaml_data Link :=
  match document with
  | DocMapping data =>
      {| data_page_title := raw_page_title data;
         data_extra_links := raw_extra_links data;
         data_copier_project := raw_copier_project data;
         data_repos :=
           match raw_repos data with
           | ReposEntries entries => Some (typed_entries entries)
           | _ => None
           end |}
  | DocNotMapping =>
      {| data_page_title := None; data_extra_links := None;
         data_copier_project := None; data_repos := None |}
  end.

Definition as_document_outcome {A} (o : load_outcome A) : document_outcome A :=
  match o with
  | Loaded a h => DocLoaded a h
  | KeyError key => DocRaise (LoadKeyError key)
  end.

(** ** The string and float operations on known values *)

Example str_replace_line_break :
  str_replace "<br>" " " "12:30<br>May 01" = "12:30 May 01".
Proof. reflexivity. Qed.

Example str_replace_no_overlap :
  str_replace "<br>" " " "a<br><br>b<<br>br>" = "a  b< br>".
Proof. reflexivity. Qed.

(** [1 / 3 * 100] is 33.33333333333333 and rounds to 33.3. *)
Example one_third_percent :
  PrimFloat.mul (nearest_quotient 1 3) 100 = nearest_quotient 3333333333333333 100000000000000
  ∧ py_round_float (PrimFloat.mul (nearest_quotient 1 3) 100) 1 = nearest_quotient 333 10.
Proof. split; reflexivity. Qed.

(** [round(0.125, 2)] is 0.12: an exact tie goes to the even digit. *)
Example round_tie_to_even :
  py_round_float (nearest_quotient 1 8) 2 = nearest_quotient 12 100.
Proof. reflexivity. Qed.

(** [round(2.675, 2)] is 2.67: the float 2.675 lies below the decimal 2.675. *)
Example round_inexact_decimal :
  py_round_float (nearest_quotient 2675 1000) 2 = nearest_quotient 267 100.
Proof. reflexivity. Qed.

(** [round(-0.01, 1)] is the negative zero. *)
Example round_keeps_sign :
  py_round_float (nearest_quotient (-1) 100) 1 = neg_zero.
Proof. reflexivity. Qed.

(** ** Lemmas on the monad and the loops *)

Lemma bind_Return {A B} (m : M A) (f : A → M B) h a h1 :
  m h = Return a h1 → (m ≫= f) h = f a h1.
Proof. intros E. unfold mbind, M_bind. by rewrite E. Qed.

Lemma build_workflows_effective p : build_workflows p = effective_set p.
Proof.
  unfold build_workflows, effective_set, present_slots.
  destruct (smoke_test p), (build_docs p), (benchmarks p), (live_build p);
    reflexivity.
Qed.

Lemma count_status_cons status w ws :
  count_status status (w :: ws) =
  (if decide (workflow_status w = status) then 1 else 0) + count_status status ws.
Proof.
  unfold count_status. rewrite filter_cons.
  destruct (decide (workflow_status w = status)); simpl length; lia.
Qed.

Lemma count_stale_cons w ws :
  count_stale (w :: ws) = (if is_stale w then 1 else 0) + count_stale ws.
Proof.
  unfold count_stale. rewrite filter_cons.
  destruct (decide (is_stale w = true)) as [E|E];
    destruct (is_stale w); try congruence; simpl length; lia.
Qed.

Lemma count_status_app status ws1 ws2 :
  count_status status (ws1 ++ ws2) = count_status status ws1 + count_status status ws2.
Proof. unfold count_status. rewrite filter_app, length_app. lia. Qed.

Lemma count_stale_app ws1 ws2 :
  count_stale (ws1 ++ ws2) = count_stale ws1 + count_stale ws2.
Proof. unfold count_stale. rewrite filter_app, length_app. lia. Qed.

(** One pass of the inner loop body, field by field. *)
Lemma count_workflow_fields w v :
  let v' := count_workflow w v in
  passing_count v' = passing_count v + count_status "success" [w]
  ∧ failing_count v' = failing_count v + count_status "failure" [w]
  ∧ pending_count v' = pending_count v + count_status "pending" [w]
  ∧ stale_count v' = stale_count v + count_stale [w]
  ∧ total_workflows v' = total_workflows v + 1
  ∧ project_passing v' = project_passing v + count_status "success" [w]
  ∧ project_failing v' = project_failing v + count_status "failure" [w].
Proof.
  rewrite !count_status_cons, count_stale_cons.
  unfold count_workflow, count_status, count_stale; simpl.
  destruct (String.eqb_spec (workflow_status w) "success") as [E|E];
    [rewrite E | destruct (String.eqb_spec (workflow_status w) "failure") as [E1|E1];
      [rewrite E1 | destruct (String.eqb_spec (workflow_status w) "pending") as [E2|E2];
        [rewrite E2 |] ] ];
    repeat case_decide; try congruence; try discriminate;
    destruct (is_stale w); simpl; repeat split; lia.
Qed.

Lemma count_workflows_fields ws : ∀ v,
  let v' := count_workflows ws v in
  passing_count v' = passing_count v + count_status "success" ws
  ∧ failing_count v' = failing_count v + count_status "failure" ws
  ∧ pending_count v' = pending_count v + count_status "pending" ws
  ∧ stale_count v' = stale_count v + count_stale ws
  ∧ total_workflows v' = total_workflows v + Z.of_nat (length ws)
  ∧ project_passing v' = project_passing v + count_status "success" ws
  ∧ project_failing v' = project_failing v + count_status "failure" ws.
Proof.
  induction ws as [|w ws IH]; intros v.
  - unfold count_status, count_stale; simpl. repeat split; lia.
  - simpl. specialize (IH (count_workflow w v)). simpl in IH.
    pose proof (count_workflow_fields w v) as Hw. simpl in Hw.
    change (w :: ws) with ([w] ++ ws).
    rewrite !count_status_app, count_stale_app.
    change (length ([w] ++ ws)) with (S (length ws)).
    destruct IH as (?&?&?&?&?&?&?), Hw as (?&?&?&?&?&?&?).
    repeat split; lia.
Qed.

Lemma for_each_workflows h ws :
  forallb (λ w, bool_decide (is_Some (workflows_of h !! w))) ws = true →
  ∀ v, for_each workflow_body ws v h = Return (count_workflows (deref h ws) v) h.
Proof.
  induction ws as [|l ws IH]; intros Hok v; [reflexivity|].
  simpl in Hok. apply andb_true_iff in Hok as [Hl Hws].
  apply bool_decide_eq_true in Hl as [w Hw].
  cbn [for_each].
  erewrite bind_Return; last first.
  { unfold workflow_body. erewrite bind_Return; [reflexivity|].
    unfold read_workflow. by rewrite Hw. }
  rewrite (IH Hws). unfold deref. cbn [omap list_omap]. by rewrite Hw.
Qed.

Lemma same_but_counters_refl p : same_but_counters p p.
Proof. unfold same_but_counters. tauto. Qed.

Lemma same_but_counters_effective p p' :
  same_but_counters p p' → effective_set p' = effective_set p.
Proof.
  intros (_&_&_&_&_&_&E1&E2&E3&E4&E5).
  unfold effective_set, present_slots. by rewrite E1, E2, E3, E4, E5.
Qed.

Lemma same_but_counters_assign p p' a b :
  same_but_counters p p' →
  same_but_counters p (assign_failing_workflows b (assign_passing_workflows a p')).
Proof. unfold same_but_counters. simpl. tauto. Qed.

Lemma same_shape_refl h : same_shape h h.
Proof.
  split; [done|]. intros l. destruct (projects_of h !! l); constructor.
  apply same_but_counters_refl.
Qed.

Lemma same_shape_project_workflows h0 h l :
  same_shape h0 h → project_workflows h l = project_workflows h0 l.
Proof.
  intros [Hw Hp]. unfold project_workflows, deref. specialize (Hp l).
  destruct Hp as [p p' Hpp|]; [|done].
  rewrite (same_but_counters_effective _ _ Hpp). by rewrite Hw.
Qed.

(** One iteration of the outer loop. *)
Lemma project_body_spec h0 h l v :
  same_shape h0 h → valid_project h0 l = true →
  ∃ p', projects_of h !! l = Some p' ∧
    let v' := count_workflows (project_workflows h0 l) (reset_project_tallies v) in
    project_body l v h =
    Return v'
      {| workflows_of := workflows_of h;
         projects_of :=
           <[l := assign_failing_workflows (project_failing v')
                    (assign_passing_workflows (project_passing v') p')]>
             (projects_of h) |}.
Proof.
  intros Hs Hv. pose proof Hs as [Hw Hp]. specialize (Hp l).
  unfold valid_project in Hv.
  destruct (projects_of h0 !! l) as [p|] eqn:Hl; [|discriminate].
  destruct (projects_of h !! l) as [p'|] eqn:Hl'; inversion Hp as [? ? Hpp|]; subst.
  exists p'. split; [done|]. intros v'.
  assert (Hb : build_workflows p' = build_workflows p).
  { rewrite !build_workflows_effective. by apply same_but_counters_effective. }
  unfold project_body.
  erewrite bind_Return; [|unfold read_project; by rewrite Hl'].
  erewrite bind_Return; last first.
  { apply for_each_workflows. rewrite Hb, Hw. exact Hv. }
  assert (Hd : deref h (build_workflows p') = project_workflows h0 l).
  { unfold project_workflows. rewrite Hl, Hb, build_workflows_effective.
    unfold deref. by rewrite Hw. }
  rewrite Hd. fold v'.
  erewrite bind_Return; [|unfold assign_project; by rewrite Hl'].
  erewrite bind_Return; last first.
  { unfold assign_project. cbn [projects_of workflows_of].
    rewrite lookup_insert_eq. reflexivity. }
  unfold mret, M_ret. by rewrite insert_insert_eq.
Qed.

Lemma same_shape_insert h0 h l p' a b :
  same_shape h0 h → projects_of h !! l = Some p' →
  same_shape h0
    {| workflows_of := workflows_of h;
       projects_of :=
         <[l := assign_failing_workflows b (assign_passing_workflows a p')]>
           (projects_of h) |}.
Proof.
  intros [Hw Hp] Hl. split; [exact Hw|]. intros l'. cbn [projects_of].
  destruct (decide (l = l')) as [<-|Hne].
  - rewrite lookup_insert_eq. specialize (Hp l). rewrite Hl in Hp.
    inversion Hp as [p ? Hpp|]; subst. constructor.
    by apply same_but_counters_assign.
  - rewrite lookup_insert_ne by done. apply Hp.
Qed.

(** The outer loop: what it returns, and what it leaves in the store. *)
Lemma for_each_projects h0 ps : ∀ v h,
  same_shape h0 h → valid_refs h0 ps = true →
  ∃ v' h', for_each project_body ps v h = Return v' h'
    ∧ same_shape h0 h'
    ∧ (∀ l, l ∉ ps → projects_of h' !! l = projects_of h !! l)
    ∧ (∀ l, l ∈ ps → tallied h' l)
    ∧ passing_count v' = passing_count v + count_status "success" (fleet_workflows h0 ps)
    ∧ failing_count v' = failing_count v + count_status "failure" (fleet_workflows h0 ps)
    ∧ pending_count v' = pending_count v + count_status "pending" (fleet_workflows h0 ps)
    ∧ stale_count v' = stale_count v + count_stale (fleet_workflows h0 ps)
    ∧ total_workflows v' = total_workflows v + Z.of_nat (length (fleet_workflows h0 ps)).
Proof.
  induction ps as [|l ps IH]; intros v h Hs Hv.
  - exists v, h. unfold fleet_workflows, count_status, count_stale; simpl.
    split; [done|]. split; [done|]. split; [done|].
    split; [intros l Hl; by apply elem_of_nil in Hl|]. repeat split; lia.
  - simpl in Hv. apply andb_true_iff in Hv as [Hl Hps].
    destruct (project_body_spec h0 h l v Hs Hl) as (p' & Hl' & Hbody).
    simpl in Hbody.
    set (v1 := count_workflows (project_workflows h0 l) (reset_project_tallies v)) in *.
    set (h1 := {| workflows_of := workflows_of h; projects_of := _ |}) in *.
    assert (Hs1 : same_shape h0 h1) by (by apply same_shape_insert).
    destruct (IH v1 h1 Hs1 Hps)
      as (v' & h' & Hrun & Hs' & Hout & Hin & Hc1 & Hc2 & Hc3 & Hc4 & Hc5).
    exists v', h'. split.
    { cbn [for_each]. erewrite bind_Return; [exact Hrun | exact Hbody]. }
    split; [exact Hs'|].
    pose proof (count_workflows_fields (project_workflows h0 l)
                  (reset_project_tallies v)) as Hf.
    simpl in Hf. fold v1 in Hf. destruct Hf as (F1 & F2 & F3 & F4 & F5 & F6 & F7).
    split; [|split].
    + intros l' Hl'n. apply not_elem_of_cons in Hl'n as [Hne Hnin].
      rewrite (Hout l' Hnin). subst h1. cbn [projects_of].
      by rewrite lookup_insert_ne.
    + intros l' Hl'in. destruct (decide (l' ∈ ps)) as [Hi|Hni]; [by apply Hin|].
      apply elem_of_cons in Hl'in as [->|]; [|done].
      unfold tallied. rewrite (Hout l Hni).
      rewrite (same_shape_project_workflows h0 h' l Hs').
      subst h1. cbn [projects_of]. rewrite lookup_insert_eq.
      eexists. split; [reflexivity|]. simpl. split; lia.
    + unfold fleet_workflows in *. cbn [map concat].
      rewrite !count_status_app, count_stale_app, length_app.
      repeat split; lia.
Qed.

Lemma percent_spec count total h :
  percent count total h = Return (percent_value count total) h.
Proof.
  unfold percent, percent_value, py_truediv.
  destruct (Z.ltb_spec 0 total) as [Hpos|Hle]; [|reflexivity].
  destruct (Z.eqb_spec total 0) as [->|_]; [lia|reflexivity].
Qed.

(** [calculate_statistics] returns without raising, returns [statistics_of],
    and leaves every listed project tallied and everything else in place. *)
Lemma calculate_statistics_spec h ps :
  valid_refs h ps = true →
  ∃ h', calculate_statistics ps h = Return (statistics_of h ps) h'
    ∧ same_shape h h'
    ∧ (∀ l, l ∉ ps → projects_of h' !! l = projects_of h !! l)
    ∧ (∀ l, l ∈ ps → tallied h' l).
Proof.
  intros Hv.
  destruct (for_each_projects h ps (mkLocals 0 0 0 0 0 0 0) h (same_shape_refl h) Hv)
    as (v' & h' & Hrun & Hs & Hout & Hin & Hc1 & Hc2 & Hc3 & Hc4 & Hc5).
  simpl in Hc1, Hc2, Hc3, Hc4, Hc5.
  exists h'. split; [|by auto].
  unfold calculate_statistics.
  erewrite bind_Return; [|exact Hrun].
  erewrite bind_Return; [|apply percent_spec].
  erewrite bind_Return; [|apply percent_spec].
  unfold statistics_of. rewrite Hc1, Hc2, Hc3, Hc4, Hc5. reflexivity.
Qed.

Section statistics_lookup.
Context (h : store) (ps : list loc).
#[local] Abbreviation ws := (fleet_workflows h ps).

Lemma lookup_passing_count :
  statistics_of h ps !! "passing_count" = Some (PyInt (count_status "success" ws)).
Proof. reflexivity. Qed.

Lemma lookup_failing_count :
  statistics_of h ps !! "failing_count" = Some (PyInt (count_status "failure" ws)).
Proof. reflexivity. Qed.

Lemma lookup_stale_count :
  statistics_of h ps !! "stale_count" = Some (PyInt (count_stale ws)).
Proof. reflexivity. Qed.

Lemma lookup_pending_count :
  statistics_of h ps !! "pending_count" = Some (PyInt (count_status "pending" ws)).
Proof. reflexivity. Qed.

Lemma lookup_total_workflows :
  statistics_of h ps !! "total_workflows" = Some (PyInt (Z.of_nat (length ws))).
Proof. reflexivity. Qed.

Lemma lookup_passing_percent :
  statistics_of h ps !! "passing_percent" =
  Some (percent_value (count_status "success" ws) (Z.of_nat (length ws))).
Proof. reflexivity. Qed.

Lemma lookup_failing_percent :
  statistics_of h ps !! "failing_percent" =
  Some (percent_value (count_status "failure" ws) (Z.of_nat (length ws))).
Proof. reflexivity. Qed.

Lemma lookup_repo_count :
  statistics_of h ps !! "repo_count" = Some (PyInt (Z.of_nat (length ps))).
Proof. reflexivity. Qed.
End statistics_lookup.

(** The assertions of [test_enhanced_dashboard.py] on its sample fleet, and
    the per-project counters it prints. *)
Example sample_fleet_statistics :
  ∃ stats h', calculate_statistics sample_projects sample_store = Return stats h'
    ∧ stats !! "repo_count" = Some (PyInt 3)
    ∧ stats !! "passing_count" = Some (PyInt 3)
    ∧ stats !! "failing_count" = Some (PyInt 1)
    ∧ stats !! "stale_count" = Some (PyInt 1)
    ∧ stats !! "pending_count" = Some (PyInt 1)
    ∧ stats !! "total_workflows" = Some (PyInt 5)
    ∧ stats !! "passing_percent" = Some (PyFloat 60)
    ∧ stats !! "failing_percent" = Some (PyFloat 20)
    ∧ (passing_workflows <$> projects_of h' !! 1%positive) = Some 2
    ∧ (passing_workflows <$> projects_of h' !! 2%positive) = Some 1
    ∧ (failing_workflows <$> projects_of h' !! 2%positive) = Some 1.
Proof.
  destruct (calculate_statistics_spec sample_store sample_projects eq_refl)
    as (h' & Hrun & Hs & _ & Hin).
  exists (statistics_of sample_store sample_projects), h'.
  split; [exact Hrun|]. do 8 (split; [reflexivity|]).
  assert (H1 : 1%positive ∈ sample_projects) by left.
  assert (H2 : 2%positive ∈ sample_projects) by (right; left).
  destruct (Hin _ H1) as (p1 & E1 & Hp1 & _), (Hin _ H2) as (p2 & E2 & Hp2 & Hf2).
  rewrite (same_shape_project_workflows _ _ _ Hs) in Hp1.
  rewrite (same_shape_project_workflows _ _ _ Hs) in Hp2, Hf2.
  unfold loc in *. rewrite E1, E2. simpl. rewrite Hp1, Hp2, Hf2. repeat split.
Qed.

(** ** WorkflowElemData.set_status *)

Lemma set_status_status status time stale w :
  workflow_status (set_status status time stale w) = status.
Proof.
  unfold set_status.
  destruct (String.eqb status "success"); [reflexivity|].
  destruct (String.eqb status "failure"); reflexivity.
Qed.

(** A success or failure always leaves the matching display attributes. *)
Lemma set_status_decisive_agrees status time stale w :
  status = "success" ∨ status = "failure" →
  display_agrees (set_status status time stale w).
Proof. intros [->| ->]; reflexivity. Qed.

(** Any other status keeps whatever display attributes the object had. *)
Lemma set_status_other_keeps status time stale w :
  status ≠ "success" → status ≠ "failure" →
  display_class (set_status status time stale w) = display_class w
  ∧ icon_class (set_status status time stale w) = icon_class w.
Proof.
  intros H1 H2. unfold set_status.
  apply String.eqb_neq in H1, H2. rewrite H1, H2. done.
Qed.

(** The first call on a freshly constructed object leaves it consistent. *)
Lemma set_status_first_call_agrees name url owner repo branch status time stale :
  display_agrees
    (set_status status time stale (WorkflowElemData_init name url owner repo branch)).
Proof.
  unfold display_agrees. rewrite set_status_status.
  unfold set_status, display_of_status.
  destruct (String.eqb status "success"); [reflexivity|].
  destruct (String.eqb status "failure"); reflexivity.
Qed.

(** C1: the display class and icon are claimed to be a function of the
    current status after every run of [set_status] calls. On a fresh workflow,
    [set_status("success", ...)] followed by [set_status("pending", ...)]
    leaves the status "pending" with the green cell and the check icon of the
    earlier success: a state in which the display disagrees with the status. *)
Theorem set_status_keeps_outdated_display :
  let w :=
    set_status_calls [("success", "1 hour ago", false); ("pending", "", false)]
      (WorkflowElemData_init "smoke.yml" "https://github.com/test-org/repo1"
         "test-org" "repo1" "") in
  workflow_status w = "pending"
  ∧ display_class w = "green-cell"
  ∧ icon_class w = "fa-solid fa-circle-check"
  ∧ display_of_status (workflow_status w)
    = ("yellow-cell", "fa-solid fa-circle-question")
  ∧ ¬ display_agrees w.
Proof. repeat split. intros H. discriminate H. Qed.

(** C9: [set_status] is idempotent: a second call with the same three
    arguments leaves the object exactly as the first call left it. *)
Theorem set_status_idempotent status time stale w :
  set_status status time stale (set_status status time stale w)
  = set_status status time stale w.
Proof.
  unfold set_status.
  destruct (String.eqb status "success") eqn:E1; [reflexivity|].
  destruct (String.eqb status "failure") eqn:E2; reflexivity.
Qed.

(** ** ProjectData.set_copier_version *)

Lemma set_copier_version_class v tv p :
  copier_version_display_class (set_copier_version (Some v) tv p) =
  if Version_lt v tv then "yellow-cell"
  else if Version_eq v tv then "green-cell" else "red-cell".
Proof.
  unfold set_copier_version.
  destruct (Version_lt v tv); [reflexivity|].
  destruct (Version_eq v tv); reflexivity.
Qed.

Lemma set_copier_version_str v tv p :
  copier_version (set_copier_version (Some v) tv p) = Version_str v.
Proof.
  unfold set_copier_version.
  destruct (Version_lt v tv); [reflexivity|].
  destruct (Version_eq v tv); reflexivity.
Qed.

Lemma Version_lt_precedes a b : Version_lt a b = true ↔ semver_precedes a b.
Proof.
  unfold Version_lt, semver_precedes.
  rewrite !orb_true_iff, !andb_true_iff, !orb_true_iff, !andb_true_iff,
    !N.ltb_lt, !N.eqb_eq. tauto.
Qed.

Lemma Version_eq_eq a b : Version_eq a b = true ↔ a = b.
Proof.
  unfold Version_eq. rewrite !andb_true_iff, !N.eqb_eq. destruct a, b; simpl.
  split; [intros [[-> ->] ->]; reflexivity|intros [= -> -> ->]; done].
Qed.

Lemma semver_trichotomy a b :
  Version_lt a b = false → Version_eq a b = false → semver_precedes b a.
Proof.
  intros Hlt Heq.
  assert (Hn : ¬ semver_precedes a b) by (rewrite <- Version_lt_precedes; congruence).
  assert (Hne : a ≠ b) by (rewrite <- Version_eq_eq; congruence).
  unfold semver_precedes in *. destruct a as [a1 a2 a3], b as [b1 b2 b3]. simpl in *.
  destruct (N.lt_trichotomy a1 b1) as [?|[->|?]]; [tauto| |by left].
  destruct (N.lt_trichotomy a2 b2) as [?|[->|?]]; [tauto| |tauto].
  destruct (N.lt_trichotomy a3 b3) as [?|[->|?]]; [tauto|congruence|tauto].
Qed.

Lemma semver_precedes_irrefl a b : semver_precedes a b → ¬ semver_precedes b a ∧ a ≠ b.
Proof.
  unfold semver_precedes. destruct a as [a1 a2 a3], b as [b1 b2 b3]. simpl.
  intros H. split; [lia|]. intros [= -> -> ->]. lia.
Qed.

Lemma set_copier_version_classes v tv p :
  let c := copier_version_display_class (set_copier_version (Some v) tv p) in
  (c = "yellow-cell" ↔ semver_precedes v tv)
  ∧ (c = "green-cell" ↔ v = tv)
  ∧ (c = "red-cell" ↔ semver_precedes tv v).
Proof.
  intros c. subst c. rewrite set_copier_version_class.
  destruct (Version_lt v tv) eqn:Hlt.
  - apply Version_lt_precedes in Hlt. destruct (semver_precedes_irrefl _ _ Hlt).
    repeat split; try done; intros; try discriminate; tauto || congruence.
  - destruct (Version_eq v tv) eqn:Heq.
    + apply Version_eq_eq in Heq as ->.
      assert (¬ semver_precedes tv tv) by (intros H; by destruct (semver_precedes_irrefl _ _ H)).
      repeat split; try done; intros; try discriminate; tauto.
    + pose proof (semver_trichotomy _ _ Hlt Heq) as Hgt.
      destruct (semver_precedes_irrefl _ _ Hgt) as [Hn Hne].
      repeat split; try done; intros; try discriminate; try tauto; congruence.
Qed.

(** C2: the class is decided by semantic-version precedence: for every
    version and baseline it is "yellow-cell" exactly when the version
    precedes the baseline (major, then minor, then patch, compared as
    numbers), "green-cell" exactly when the two are equal and "red-cell"
    exactly when the baseline precedes the version. With baseline 1.2.0,
    version 1.1.9 is below, 1.2.0 at and 1.10.0 above the baseline, although
    "1.10.0" precedes "1.2.0" as a string; 0.10.0 is above 0.9.0, 2.0.0 above
    1.9.9, 1.2.0 below 1.2.1 and 0.9.9 below 1.0.0. The printed version is
    stored, and with [None] for this-version the call returns the object
    unchanged. *)
Theorem set_copier_version_semantic_order :
  let baseline := mkVersion 1 2 0 in
  (∀ p, let p' := set_copier_version (Some (mkVersion 1 1 9)) baseline p in
        copier_version_display_class p' = "yellow-cell" ∧ copier_version p' = "1.1.9")
  ∧ (∀ p, let p' := set_copier_version (Some (mkVersion 1 2 0)) baseline p in
        copier_version_display_class p' = "green-cell" ∧ copier_version p' = "1.2.0")
  ∧ (∀ p, let p' := set_copier_version (Some (mkVersion 1 10 0)) baseline p in
        copier_version_display_class p' = "red-cell" ∧ copier_version p' = "1.10.0")
  ∧ str_lt "1.10.0" (Version_str baseline) = true
  ∧ (∀ template_version p, set_copier_version None template_version p = p)
  ∧ (∀ v template_version p,
       let c := copier_version_display_class
                  (set_copier_version (Some v) template_version p) in
       (c = "yellow-cell" ↔ semver_precedes v template_version)
       ∧ (c = "green-cell" ↔ v = template_version)
       ∧ (c = "red-cell" ↔ semver_precedes template_version v))
  ∧ (∀ p, copier_version_display_class
            (set_copier_version (Some (mkVersion 0 10 0)) (mkVersion 0 9 0) p) = "red-cell")
  ∧ (∀ p, copier_version_display_class
            (set_copier_version (Some (mkVersion 2 0 0)) (mkVersion 1 9 9) p) = "red-cell")
  ∧ (∀ p, copier_version_display_class
            (set_copier_version (Some (mkVersion 1 2 0)) (mkVersion 1 2 1) p) = "yellow-cell")
  ∧ (∀ p, copier_version_display_class
            (set_copier_version (Some (mkVersion 0 9 9)) (mkVersion 1 0 0) p) = "yellow-cell").
Proof.
  intros baseline. do 5 (split; [repeat split|]).
  split; [intros v tv p; apply set_copier_version_classes|].
  repeat split.
Qed.

(** C10: a freshly constructed project has the compliance class
    "yellow-cell", it still has it after any number of [set_copier_version]
    calls without a version, and "yellow-cell" is also the class given to any
    project whose version is below the baseline. *)
Theorem no_version_reads_as_below_baseline owner repo v template_version p n :
  Version_lt v template_version = true →
  let fresh := ProjectData_init owner repo in
  copier_version_display_class fresh = "yellow-cell"
  ∧ copier_version_display_class
      (Nat.iter n (set_copier_version None template_version) fresh) = "yellow-cell"
  ∧ copier_version_display_class (set_copier_version (Some v) template_version p)
    = "yellow-cell".
Proof.
  intros Hlt fresh. split; [reflexivity|]. split.
  - induction n as [|n IH]; [reflexivity|exact IH].
  - by rewrite set_copier_version_class, Hlt.
Qed.

Lemma no_version_reads_as_below_baseline_witness :
  Version_lt (mkVersion 0 2 8) (mkVersion 0 3 0) = true
  ∧ copier_version_display_class (ProjectData_init "test-org" "repo2") = "yellow-cell"
  ∧ copier_version_display_class
      (Nat.iter 2 (set_copier_version None (mkVersion 0 3 0))
         (ProjectData_init "test-org" "repo2")) = "yellow-cell"
  ∧ copier_version_display_class
      (set_copier_version (Some (mkVersion 0 2 8)) (mkVersion 0 3 0)
         (ProjectData_init "test-org" "repo1")) = "yellow-cell".
Proof.
  split; [reflexivity|].
  apply (no_version_reads_as_below_baseline "test-org" "repo2" (mkVersion 0 2 8)
           (mkVersion 0 3 0) (ProjectData_init "test-org" "repo1") 2).
  reflexivity.
Defined.

(** ** calculate_statistics *)

Lemma length_by_status ws :
  Z.of_nat (length ws) =
  count_status "success" ws + count_status "failure" ws
  + count_status "pending" ws + Z.of_nat (length (filter unknown_status ws)).
Proof.
  induction ws as [|w ws IH]; [reflexivity|].
  rewrite !count_status_cons, filter_cons. cbn [length].
  unfold unknown_status at 1.
  repeat case_decide; try (simpl length; lia); exfalso; intuition congruence.
Qed.

Lemma filter_nonempty_Exists {A} (P : A → Prop) `{∀ x, Decision (P x)} (xs : list A) :
  (0 < length (filter P xs))%nat ↔ Exists P xs.
Proof.
  rewrite Exists_exists. split.
  - intros Hlen. destruct (filter P xs) as [|x ys] eqn:E; [simpl in Hlen; lia|].
    assert (Hin : x ∈ filter P xs) by (rewrite E; left).
    apply list_elem_of_filter in Hin as [HP Hx]. by exists x.
  - intros (x & Hx & HP).
    assert (Hin : x ∈ filter P xs) by (by apply list_elem_of_filter).
    destruct (filter P xs); [by apply elem_of_nil in Hin | simpl; lia].
Qed.

Lemma length_deref h ws :
  forallb (λ w, bool_decide (is_Some (workflows_of h !! w))) ws = true →
  length (deref h ws) = length ws.
Proof.
  induction ws as [|l ws IH]; [reflexivity|]. simpl. intros Hok.
  apply andb_true_iff in Hok as [Hl Hws]. apply bool_decide_eq_true in Hl as [w Hw].
  unfold deref in *. cbn [omap list_omap]. rewrite Hw. simpl. by rewrite IH.
Qed.

Lemma length_fleet_workflows h ps :
  valid_refs h ps = true →
  Z.of_nat (length (fleet_workflows h ps)) = sum_Z (map (declared_workflows h) ps).
Proof.
  induction ps as [|l ps IH]; [reflexivity|]. simpl. intros Hok.
  apply andb_true_iff in Hok as [Hl Hps].
  unfold fleet_workflows in *. cbn [map concat]. rewrite length_app, Nat2Z.inj_add, (IH Hps).
  f_equal. unfold valid_project in Hl. unfold project_workflows, declared_workflows.
  destruct (projects_of h !! l) as [p|]; [|discriminate].
  rewrite build_workflows_effective in Hl. rewrite (length_deref _ _ Hl).
  unfold effective_set. by rewrite length_app.
Qed.

(** C3: after the pass, the [passing_workflows] of every listed project is
    the number of workflows of its own effective set with status "success",
    and its [failing_workflows] the number with status "failure", whatever
    the counters held before; a project with no workflows has both at 0. *)
Theorem project_counters_match_own_workflows h ps :
  valid_refs h ps = true →
  ∃ stats h', calculate_statistics ps h = Return stats h'
    ∧ Forall (λ l, ∃ p p',
        projects_of h !! l = Some p ∧ projects_of h' !! l = Some p'
        ∧ effective_set p' = effective_set p
        ∧ deref h' (effective_set p') = deref h (effective_set p)
        ∧ passing_workflows p' = count_status "success" (deref h' (effective_set p'))
        ∧ failing_workflows p' = count_status "failure" (deref h' (effective_set p'))
        ∧ (effective_set p' = [] →
           passing_workflows p' = 0 ∧ failing_workflows p' = 0)) ps.
Proof.
  intros Hv.
  destruct (calculate_statistics_spec h ps Hv) as (h' & Hrun & Hs & _ & Hin).
  exists (statistics_of h ps), h'. split; [exact Hrun|].
  apply Forall_forall. intros l Hl. pose proof (Hin l Hl) as Ht.
  destruct Ht as (p' & Hp' & Hpass & Hfail).
  pose proof Hs as [Hw Hp]. specialize (Hp l). rewrite Hp' in Hp.
  inversion Hp as [p ? Hpp Hlp|]; subst. symmetry in Hlp.
  pose proof (same_but_counters_effective _ _ Hpp) as He.
  unfold project_workflows in Hpass, Hfail. rewrite Hp' in Hpass, Hfail.
  exists p, p'. split; [done|]. split; [done|]. split; [done|].
  split; [unfold deref; by rewrite He, Hw|]. split; [done|]. split; [done|].
  intros Hnil. rewrite Hnil in Hpass, Hfail. done.
Qed.

Lemma project_counters_match_own_workflows_witness :
  valid_refs sample_store [2; 3; 2]%positive = true
  ∧ ∃ stats h', calculate_statistics [2; 3; 2]%positive sample_store = Return stats h'
    ∧ Forall (λ l, ∃ p p',
        projects_of sample_store !! l = Some p ∧ projects_of h' !! l = Some p'
        ∧ effective_set p' = effective_set p
        ∧ deref h' (effective_set p') = deref sample_store (effective_set p)
        ∧ passing_workflows p' = count_status "success" (deref h' (effective_set p'))
        ∧ failing_workflows p' = count_status "failure" (deref h' (effective_set p'))
        ∧ (effective_set p' = [] →
           passing_workflows p' = 0 ∧ failing_workflows p' = 0)) [2; 3; 2]%positive.
Proof.
  split; [reflexivity|].
  apply (project_counters_match_own_workflows sample_store [2; 3; 2]%positive).
  reflexivity.
Defined.

(** C4: [stale_count] is the number of workflows of the fleet whose stale
    flag is set, whatever their status, while [passing_count] is the number
    with status "success" whatever their stale flag; so a fleet of one stale
    successful workflow has both at 1. *)
Theorem stale_count_independent_of_status h ps :
  valid_refs h ps = true →
  ∃ stats h', calculate_statistics ps h = Return stats h'
    ∧ stats !! "stale_count" = Some (PyInt (count_stale (fleet_workflows h ps)))
    ∧ stats !! "passing_count"
      = Some (PyInt (count_status "success" (fleet_workflows h ps)))
    ∧ (∀ w, fleet_workflows h ps = [w] →
         workflow_status w = "success" → is_stale w = true →
         stats !! "passing_count" = Some (PyInt 1)
         ∧ stats !! "stale_count" = Some (PyInt 1))
    ∧ (∀ w v, workflow_status w = "success" → is_stale w = true →
         passing_count (count_workflow w v) = passing_count v + 1
         ∧ stale_count (count_workflow w v) = stale_count v + 1).
Proof.
  intros Hv.
  destruct (calculate_statistics_spec h ps Hv) as (h' & Hrun & _).
  exists (statistics_of h ps), h'. split; [exact Hrun|].
  split; [apply lookup_stale_count|]. split; [apply lookup_passing_count|]. split.
  - intros w Hw Hs Hst. rewrite lookup_passing_count, lookup_stale_count, Hw.
    rewrite count_status_cons, count_stale_cons, Hs, Hst. done.
  - intros w v Hs Hst.
    pose proof (count_workflow_fields w v) as (F1 & _ & _ & F4 & _). simpl in F1, F4.
    rewrite count_status_cons, Hs in F1. rewrite count_stale_cons, Hst in F4.
    split; [exact F1 | exact F4].
Qed.

Lemma stale_count_independent_of_status_witness :
  valid_refs stale_success_store [1%positive] = true
  ∧ ∃ stats h', calculate_statistics [1%positive] stale_success_store = Return stats h'
    ∧ stats !! "passing_count" = Some (PyInt 1)
    ∧ stats !! "stale_count" = Some (PyInt 1).
Proof.
  split; [reflexivity|].
  destruct (stale_count_independent_of_status stale_success_store [1%positive] eq_refl)
    as (stats & h' & Hrun & _ & _ & Hone & _).
  exists stats, h'. split; [exact Hrun|].
  apply (Hone (sample_workflow "docs.yml" "repo2" "success" "1 day ago" true));
    reflexivity.
Defined.

(** C5: the three named buckets never exceed the total, and they fall short
    of it exactly when some workflow of the fleet has a status other than
    "success", "failure" and "pending"; such a workflow adds one to the total
    and nothing to the three buckets. *)
Theorem named_buckets_bounded_by_total h ps :
  valid_refs h ps = true →
  ∃ stats h' passing failing pending total,
    calculate_statistics ps h = Return stats h'
    ∧ stats !! "passing_count" = Some (PyInt passing)
    ∧ stats !! "failing_count" = Some (PyInt failing)
    ∧ stats !! "pending_count" = Some (PyInt pending)
    ∧ stats !! "total_workflows" = Some (PyInt total)
    ∧ passing + failing + pending ≤ total
    ∧ (passing + failing + pending < total
       ↔ Exists unknown_status (fleet_workflows h ps))
    ∧ (∀ w v, unknown_status w →
         total_workflows (count_workflow w v) = total_workflows v + 1
         ∧ passing_count (count_workflow w v) = passing_count v
         ∧ failing_count (count_workflow w v) = failing_count v
         ∧ pending_count (count_workflow w v) = pending_count v).
Proof.
  intros Hv.
  destruct (calculate_statistics_spec h ps Hv) as (h' & Hrun & _).
  set (ws := fleet_workflows h ps).
  exists (statistics_of h ps), h', (count_status "success" ws),
    (count_status "failure" ws), (count_status "pending" ws), (Z.of_nat (length ws)).
  split; [exact Hrun|].
  split; [apply lookup_passing_count|]. split; [apply lookup_failing_count|].
  split; [apply lookup_pending_count|]. split; [apply lookup_total_workflows|].
  pose proof (length_by_status ws) as Hlen.
  pose proof (filter_nonempty_Exists unknown_status ws) as Hex.
  split; [lia|]. split.
  - rewrite <- Hex. lia.
  - intros w v (U1 & U2 & U3).
    pose proof (count_workflow_fields w v) as (F1 & F2 & F3 & _ & F5 & _).
    simpl in F1, F2, F3, F5. rewrite count_status_cons in F1, F2, F3.
    rewrite decide_False in F1 by done. rewrite decide_False in F2 by done.
    rewrite decide_False in F3 by done.
    unfold count_status in F1, F2, F3. simpl in F1, F2, F3. repeat split; lia.
Qed.

Lemma named_buckets_bounded_by_total_witness :
  valid_refs unknown_status_store [1%positive] = true
  ∧ ∃ stats h' passing failing pending total,
    calculate_statistics [1%positive] unknown_status_store = Return stats h'
    ∧ stats !! "passing_count" = Some (PyInt passing)
    ∧ stats !! "failing_count" = Some (PyInt failing)
    ∧ stats !! "pending_count" = Some (PyInt pending)
    ∧ stats !! "total_workflows" = Some (PyInt total)
    ∧ passing + failing + pending < total.
Proof.
  split; [reflexivity|].
  destruct (named_buckets_bounded_by_total unknown_status_store [1%positive] eq_refl)
    as (stats & h' & a & b & c & t & Hrun & Ha & Hb & Hc & Ht & _ & Hiff & _).
  exists stats, h', a, b, c, t. repeat (split; [assumption|]).
  apply Hiff. apply Exists_cons_tl, Exists_cons_hd.
  repeat split; discriminate.
Defined.

(** C6: [total_workflows] is the sum over the listed projects of the number
    of named slots that are present plus the length of [other_workflows], and
    [repo_count] is the length of the project list, projects without
    workflows included. *)
Theorem total_workflows_and_repo_count h ps :
  valid_refs h ps = true →
  ∃ stats h', calculate_statistics ps h = Return stats h'
    ∧ stats !! "total_workflows"
      = Some (PyInt (sum_Z (map (declared_workflows h) ps)))
    ∧ stats !! "repo_count" = Some (PyInt (Z.of_nat (length ps))).
Proof.
  intros Hv.
  destruct (calculate_statistics_spec h ps Hv) as (h' & Hrun & _).
  exists (statistics_of h ps), h'. split; [exact Hrun|].
  split; [|apply lookup_repo_count].
  rewrite lookup_total_workflows. by rewrite length_fleet_workflows.
Qed.

Lemma total_workflows_and_repo_count_witness :
  valid_refs sample_store sample_projects = true
  ∧ ∃ stats h', calculate_statistics sample_projects sample_store = Return stats h'
    ∧ stats !! "total_workflows" = Some (PyInt 5)
    ∧ stats !! "repo_count" = Some (PyInt 3).
Proof.
  split; [reflexivity|].
  exact (total_workflows_and_repo_count sample_store sample_projects eq_refl).
Defined.

Lemma percent_value_pos count total :
  0 < total →
  percent_value count total =
  PyFloat (py_round_float (PrimFloat.mul (nearest_quotient count total) 100) 1).
Proof. intros H. unfold percent_value. by apply Z.ltb_lt in H as ->. Qed.

Lemma nearest_integer_unique n e k1 k2 :
  nearest_integer n e k1 → nearest_integer n e k2 → k1 = k2.
Proof.
  unfold nearest_integer.
  set (d := 2 ^ Z.max (- e) 0). set (v := n * 2 ^ Z.max e 0).
  assert (Hd : 0 < d) by (apply Z.pow_pos_nonneg; lia).
  intros (_ & H1 & E1) (_ & H2 & E2).
  assert (Hclose : k1 = k2 ∨ k1 = k2 + 1 ∨ k2 = k1 + 1) by nia.
  destruct Hclose as [?|[->| ->]]; [done| |].
  - assert (T1 : 2 * Z.abs (v - (k2 + 1) * d) = d) by nia.
    assert (T2 : 2 * Z.abs (v - k2 * d) = d) by nia.
    specialize (E1 T1). specialize (E2 T2).
    rewrite Z.even_add in E1. rewrite E2 in E1. discriminate.
  - assert (T1 : 2 * Z.abs (v - k1 * d) = d) by nia.
    assert (T2 : 2 * Z.abs (v - (k1 + 1) * d) = d) by nia.
    specialize (E1 T1). specialize (E2 T2).
    rewrite Z.even_add in E2. rewrite E1 in E2. discriminate.
Qed.

Lemma shift_round_half_even_nearest n k :
  0 <= n → 0 < k → nearest_integer n (- k) (shift_round_half_even n k).
Proof.
  intros Hn Hk. unfold nearest_integer, shift_round_half_even.
  rewrite Z.opp_involutive, (Z.max_l k 0), (Z.max_r (- k) 0) by lia.
  rewrite Z.pow_0_r, Z.mul_1_r.
  set (d := 2 ^ k). assert (Hd : 0 < d) by (apply Z.pow_pos_nonneg; lia).
  pose proof (Z.div_mod n d ltac:(lia)) as Hdm.
  pose proof (Z.mod_pos_bound n d Hd) as Hr.
  assert (Hq : 0 <= n / d) by (apply Z.div_pos; lia).
  set (q := n / d) in *. set (r := n mod d) in *.
  destruct (Z.compare_spec (2 * r) d) as [Heq|Hlt|Hgt].
  - destruct (Z.even q) eqn:Hev.
    + split; [lia|]. split; [nia|]. intros _. exact Hev.
    + split; [lia|]. split; [nia|]. intros _. rewrite Z.even_add, Hev. reflexivity.
  - split; [lia|]. split; [nia|]. intros Habs. nia.
  - split; [lia|]. split; [nia|]. intros Habs. nia.
Qed.

(** [py_round_float x 1] is [x] rounded to one decimal. *)
Lemma py_round_float_one_decimal x : rounded_to_one_decimal x (py_round_float x 1).
Proof.
  unfold rounded_to_one_decimal, py_round_float.
  destruct (FloatOps.Prim2SF x) as [| | |s m e]; try reflexivity.
  change (10 ^ 1) with 10. rewrite (Z.mul_comm (Z.pos m) 10).
  set (n := 10 * Z.pos m).
  set (q := if 0 <=? e then n * 2 ^ e else shift_round_half_even n (- e)).
  assert (Hq : nearest_integer n e q).
  { subst q. destruct (Z.leb_spec 0 e) as [He|He].
    - unfold nearest_integer. rewrite (Z.max_l e 0), (Z.max_r (- e) 0) by lia.
      rewrite Z.pow_0_r. assert (0 <= n * 2 ^ e) by (apply Z.mul_nonneg_nonneg; lia).
      split; [done|]. split; [lia|lia].
    - replace e with (- - e) at 1 by lia. apply shift_round_half_even_nearest; lia. }
  exists q. split; [exact Hq|].
  destruct Hq as (Hq0 & _). clearbody q. clear n.
  destruct q as [|p|p]; [|clear Hq0|lia].
  - destruct s; reflexivity.
  - change (Z.pos p =? 0) with false. cbv iota.
    unfold nearest_quotient. destruct s; reflexivity.
Qed.

Lemma rounded_to_one_decimal_unique x r1 r2 :
  rounded_to_one_decimal x r1 → rounded_to_one_decimal x r2 → r1 = r2.
Proof.
  unfold rounded_to_one_decimal. destruct (FloatOps.Prim2SF x) as [| | |s m e]; try congruence.
  intros (k1 & N1 & ->) (k2 & N2 & ->). by rewrite (nearest_integer_unique _ _ _ _ N1 N2).
Qed.

(** C7: the call returns without raising; with [passing], [failing] and
    [total] the counts over the fleet, [passing_percent] is
    [round(passing / total * 100, 1)] when [total > 0] and the integer 0 when
    [total = 0], and likewise [failing_percent]; [total = 4] with
    [passing = 1] gives 25.0; and an empty project list gives the dictionary
    with every entry 0. The rounding is to one decimal: the percentage is
    the float nearest to [k / 10], where [k] is the integer nearest to ten
    times the exact value of [passing / total * 100] (the even one on a tie);
    so 1 of 3 gives 33.3, 2 of 3 gives 66.7, 1 of 7 gives 14.3, and on the
    ties 6.25 and 18.75, 1 of 16 gives 6.2 and 3 of 16 gives 18.8. *)
Theorem percentages_rounded_and_guarded h ps :
  valid_refs h ps = true →
  let ws := fleet_workflows h ps in
  let passing := count_status "success" ws in
  let failing := count_status "failure" ws in
  let total := Z.of_nat (length ws) in
  ∃ stats h', calculate_statistics ps h = Return stats h'
    ∧ stats !! "passing_count" = Some (PyInt passing)
    ∧ stats !! "failing_count" = Some (PyInt failing)
    ∧ stats !! "total_workflows" = Some (PyInt total)
    ∧ (0 < total →
       stats !! "passing_percent"
       = Some (PyFloat (py_round_float
                          (PrimFloat.mul (nearest_quotient passing total) 100) 1))
       ∧ stats !! "failing_percent"
         = Some (PyFloat (py_round_float
                            (PrimFloat.mul (nearest_quotient failing total) 100) 1)))
    ∧ (total = 0 →
       stats !! "passing_percent" = Some (PyInt 0)
       ∧ stats !! "failing_percent" = Some (PyInt 0))
    ∧ (total = 4 → passing = 1 →
       stats !! "passing_percent" = Some (PyFloat 25))
    ∧ (ps = [] → stats = zero_statistics)
    ∧ (0 < total →
       ∃ r, stats !! "passing_percent" = Some (PyFloat r)
         ∧ rounded_to_one_decimal (PrimFloat.mul (nearest_quotient passing total) 100) r)
    ∧ (0 < total →
       ∃ r, stats !! "failing_percent" = Some (PyFloat r)
         ∧ rounded_to_one_decimal (PrimFloat.mul (nearest_quotient failing total) 100) r)
    ∧ (total = 3 → passing = 1 →
       stats !! "passing_percent" = Some (PyFloat 0x1.0a66666666666p+5))
    ∧ (total = 3 → passing = 2 →
       stats !! "passing_percent" = Some (PyFloat 0x1.0accccccccccdp+6))
    ∧ (total = 7 → failing = 1 →
       stats !! "failing_percent" = Some (PyFloat 0x1.c99999999999ap+3))
    ∧ (total = 16 → passing = 1 →
       stats !! "passing_percent" = Some (PyFloat 0x1.8cccccccccccdp+2))
    ∧ (total = 16 → failing = 3 →
       stats !! "failing_percent" = Some (PyFloat 0x1.2cccccccccccdp+4)).
Proof.
  intros Hv ws passing failing total.
  destruct (calculate_statistics_spec h ps Hv) as (h' & Hrun & _).
  exists (statistics_of h ps), h'. split; [exact Hrun|].
  split; [apply lookup_passing_count|]. split; [apply lookup_failing_count|].
  split; [apply lookup_total_workflows|].
  rewrite lookup_passing_percent, lookup_failing_percent.
  fold ws. fold passing. fold failing. fold total.
  split; [|split; [|split; [|split; [|split; [|split]]]]].
  - intros Hpos. by rewrite !percent_value_pos.
  - intros ->. done.
  - intros -> ->. reflexivity.
  - intros ->. reflexivity.
  - intros Hpos. rewrite percent_value_pos by done. eexists. split; [reflexivity|].
    apply py_round_float_one_decimal.
  - intros Hpos. rewrite percent_value_pos by done. eexists. split; [reflexivity|].
    apply py_round_float_one_decimal.
  - repeat split; intros -> ->; reflexivity.
Qed.

Lemma percentages_rounded_and_guarded_witness :
  valid_refs sample_store [2; 3; 3]%positive = true
  ∧ ∃ stats h',
    calculate_statistics [2; 3; 3]%positive sample_store = Return stats h'
    ∧ stats !! "passing_count" = Some (PyInt 1)
    ∧ stats !! "total_workflows" = Some (PyInt 4)
    ∧ stats !! "passing_percent" = Some (PyFloat 25).
Proof.
  split; [reflexivity|].
  destruct (percentages_rounded_and_guarded sample_store [2; 3; 3]%positive eq_refl)
    as (stats & h' & Hrun & Hp & _ & Ht & _ & _ & H25 & _).
  exists stats, h'. split; [exact Hrun|]. split; [exact Hp|]. split; [exact Ht|].
  apply H25; reflexivity.
Defined.

(** C8: the call adds and removes no object, leaves every workflow object as
    it was, and leaves every project as it was except for
    [passing_workflows] and [failing_workflows]; a project that is not in the
    list is not touched at all. *)
Theorem calculate_statistics_frame h ps :
  valid_refs h ps = true →
  ∃ stats h', calculate_statistics ps h = Return stats h'
    ∧ workflows_of h' = workflows_of h
    ∧ (∀ l, option_Forall2 same_but_counters
              (projects_of h !! l) (projects_of h' !! l))
    ∧ (∀ l, l ∉ ps → projects_of h' !! l = projects_of h !! l).
Proof.
  intros Hv.
  destruct (calculate_statistics_spec h ps Hv) as (h' & Hrun & [Hw Hp] & Hout & _).
  by exists (statistics_of h ps), h'.
Qed.

Lemma calculate_statistics_frame_witness :
  valid_refs sample_store [1; 2]%positive = true
  ∧ ∃ stats h', calculate_statistics [1; 2]%positive sample_store = Return stats h'
    ∧ workflows_of h' = workflows_of sample_store
    ∧ (∀ l, option_Forall2 same_but_counters
              (projects_of sample_store !! l) (projects_of h' !! l))
    ∧ (∀ l, l ∉ [1; 2]%positive →
            projects_of h' !! l = projects_of sample_store !! l).
Proof.
  split; [reflexivity|].
  exact (calculate_statistics_frame sample_store [1; 2]%positive eq_refl).
Defined.

(** ** calculate_statistics: repetition, order and composition *)

Lemma same_but_counters_sym p p' : same_but_counters p p' → same_but_counters p' p.
Proof. unfold same_but_counters. intuition congruence. Qed.

Lemma same_but_counters_trans p1 p2 p3 :
  same_but_counters p1 p2 → same_but_counters p2 p3 → same_but_counters p1 p3.
Proof. unfold same_but_counters. intuition congruence. Qed.

Lemma same_but_counters_eq p p' :
  same_but_counters p p' →
  passing_workflows p' = passing_workflows p →
  failing_workflows p' = failing_workflows p → p' = p.
Proof.
  destruct p, p'. unfold same_but_counters. simpl.
  intros (?&?&?&?&?&?&?&?&?&?&?) ? ?. by subst.
Qed.

Lemma same_shape_valid_project h0 h l :
  same_shape h0 h → valid_project h l = valid_project h0 l.
Proof.
  intros [Hw Hp]. unfold valid_project. specialize (Hp l).
  destruct Hp as [p p' Hpp|]; [|done].
  rewrite !build_workflows_effective, (same_but_counters_effective _ _ Hpp).
  by rewrite Hw.
Qed.

Lemma same_shape_valid_refs h0 h ps :
  same_shape h0 h → valid_refs h ps = valid_refs h0 ps.
Proof.
  intros Hs. unfold valid_refs. induction ps as [|l ps IH]; [done|].
  simpl. by rewrite IH, (same_shape_valid_project h0 h l Hs).
Qed.

Lemma same_shape_fleet_workflows h0 h ps :
  same_shape h0 h → fleet_workflows h ps = fleet_workflows h0 ps.
Proof.
  intros Hs. unfold fleet_workflows. induction ps as [|l ps IH]; [done|].
  simpl. by rewrite IH, (same_shape_project_workflows h0 h l Hs).
Qed.

Lemma same_shape_statistics h0 h ps :
  same_shape h0 h → statistics_of h ps = statistics_of h0 ps.
Proof. intros Hs. unfold statistics_of. by rewrite (same_shape_fleet_workflows h0 h ps Hs). Qed.

(** Two stores of the same shape in which the same projects are tallied are
    the same store. *)
Lemma tallied_stores_equal h a b (ps : list loc) :
  same_shape h a → same_shape h b →
  (∀ l, l ∈ ps → tallied a l) → (∀ l, l ∈ ps → tallied b l) →
  (∀ l, l ∉ ps → projects_of a !! l = projects_of b !! l) →
  a = b.
Proof.
  intros Ha Hb Hta Htb Hout.
  assert (Hp : projects_of a = projects_of b).
  { apply map_eq. intros l. destruct (decide (l ∈ ps)) as [Hin|Hni]; [|by apply Hout].
    destruct (Hta l Hin) as (pa & Ea & Pa & Fa), (Htb l Hin) as (pb & Eb & Pb & Fb).
    rewrite (same_shape_project_workflows h a l Ha) in Pa, Fa.
    rewrite (same_shape_project_workflows h b l Hb) in Pb, Fb.
    destruct Ha as [_ Ha], Hb as [_ Hb]. specialize (Ha l). specialize (Hb l).
    rewrite Ea in Ha. rewrite Eb in Hb.
    inversion Ha as [p ? Hpa Hh|]; subst. rewrite <- Hh in Hb.
    inversion Hb as [? ? Hpb|]; subst.
    rewrite Ea, Eb. f_equal. apply same_but_counters_eq; [|congruence|congruence].
    eapply same_but_counters_trans; [apply same_but_counters_sym|]; eassumption. }
  destruct Ha as [Ha _], Hb as [Hb _]. destruct a, b. simpl in *. congruence.
Qed.

(** X1: a second call on the same list returns the same dictionary as the
    first and leaves the store exactly as the first call left it. *)
Theorem calculate_statistics_repeatable h ps :
  valid_refs h ps = true →
  ∃ stats h', calculate_statistics ps h = Return stats h'
    ∧ calculate_statistics ps h' = Return stats h'.
Proof.
  intros Hv.
  destruct (calculate_statistics_spec h ps Hv) as (h1 & Hrun1 & Hs1 & Hout1 & Hin1).
  assert (Hv1 : valid_refs h1 ps = true) by (by rewrite (same_shape_valid_refs h h1 ps Hs1)).
  destruct (calculate_statistics_spec h1 ps Hv1) as (h2 & Hrun2 & Hs2 & Hout2 & Hin2).
  exists (statistics_of h ps), h1. split; [exact Hrun1|].
  rewrite Hrun2, (same_shape_statistics h h1 ps Hs1). f_equal.
  symmetry. apply (tallied_stores_equal h1 h1 h2 ps); auto using same_shape_refl.
  intros l Hl. symmetry. by apply Hout2.
Qed.

Lemma calculate_statistics_repeatable_witness :
  valid_refs sample_store sample_projects = true
  ∧ ∃ stats h', calculate_statistics sample_projects sample_store = Return stats h'
    ∧ calculate_statistics sample_projects h' = Return stats h'.
Proof.
  split; [reflexivity|].
  exact (calculate_statistics_repeatable sample_store sample_projects eq_refl).
Defined.

Lemma valid_refs_Permutation h ps ps' :
  ps ≡ₚ ps' → valid_refs h ps' = valid_refs h ps.
Proof.
  unfold valid_refs. induction 1 as [|l ps ps' _ IH|l1 l2 ps|ps1 ps2 ps3 _ IH1 _ IH2];
    simpl; [done|by rewrite IH| |congruence].
  destruct (valid_project h l1), (valid_project h l2); reflexivity.
Qed.

Lemma fleet_workflows_app h ps1 ps2 :
  fleet_workflows h (ps1 ++ ps2) = fleet_workflows h ps1 ++ fleet_workflows h ps2.
Proof. unfold fleet_workflows. by rewrite map_app, concat_app. Qed.

Lemma fleet_workflows_Permutation h ps ps' :
  ps ≡ₚ ps' → fleet_workflows h ps ≡ₚ fleet_workflows h ps'.
Proof.
  unfold fleet_workflows.
  induction 1 as [|l ps ps' _ IH|l1 l2 ps|ps1 ps2 ps3 _ IH1 _ IH2]; simpl.
  - done.
  - by rewrite IH.
  - rewrite !(assoc_L (++)). f_equiv. apply Permutation_app_comm.
  - by rewrite IH1.
Qed.

Lemma count_status_Permutation status ws ws' :
  ws ≡ₚ ws' → count_status status ws = count_status status ws'.
Proof. intros Hp. unfold count_status. by rewrite Hp. Qed.

Lemma count_stale_Permutation ws ws' :
  ws ≡ₚ ws' → count_stale ws = count_stale ws'.
Proof. intros Hp. unfold count_stale. by rewrite Hp. Qed.

Lemma statistics_of_Permutation h ps ps' :
  ps ≡ₚ ps' → statistics_of h ps' = statistics_of h ps.
Proof.
  intros Hp. pose proof (fleet_workflows_Permutation h ps ps' Hp) as Hw.
  unfold statistics_of.
  rewrite <- !(count_status_Permutation _ _ _ Hw), <- (count_stale_Permutation _ _ Hw).
  by rewrite <- (Permutation_length Hw), <- (Permutation_length Hp).
Qed.

(** X2: the order of the project list does not matter: a reordered list
    gives the same dictionary and leaves the same store. *)
Theorem calculate_statistics_order_independent h ps ps' :
  valid_refs h ps = true → ps ≡ₚ ps' →
  ∃ stats h', calculate_statistics ps h = Return stats h'
    ∧ calculate_statistics ps' h = Return stats h'.
Proof.
  intros Hv Hperm.
  assert (Hv' : valid_refs h ps' = true) by (by rewrite (valid_refs_Permutation h ps ps')).
  destruct (calculate_statistics_spec h ps Hv) as (h1 & Hrun1 & Hs1 & Hout1 & Hin1).
  destruct (calculate_statistics_spec h ps' Hv') as (h2 & Hrun2 & Hs2 & Hout2 & Hin2).
  exists (statistics_of h ps), h1. split; [exact Hrun1|].
  rewrite Hrun2, (statistics_of_Permutation h ps ps' Hperm). f_equal.
  symmetry. apply (tallied_stores_equal h h1 h2 ps); auto.
  - intros l Hl. apply Hin2. by rewrite <- Hperm.
  - intros l Hl. rewrite (Hout1 l Hl). symmetry. apply Hout2. by rewrite <- Hperm.
Qed.

Lemma calculate_statistics_order_independent_witness :
  valid_refs sample_store [1; 2; 3]%positive = true
  ∧ [1; 2; 3]%positive ≡ₚ [3; 1; 2]%positive
  ∧ ∃ stats h', calculate_statistics [1; 2; 3]%positive sample_store = Return stats h'
    ∧ calculate_statistics [3; 1; 2]%positive sample_store = Return stats h'.
Proof.
  assert (Hp : [1; 2; 3]%positive ≡ₚ [3; 1; 2]%positive).
  { symmetry. apply (Permutation_cons_append [1; 2]%positive 3%positive). }
  split; [reflexivity|]. split; [exact Hp|].
  exact (calculate_statistics_order_independent sample_store
           [1; 2; 3]%positive [3; 1; 2]%positive eq_refl Hp).
Defined.

Lemma valid_refs_app h ps1 ps2 :
  valid_refs h (ps1 ++ ps2) = valid_refs h ps1 && valid_refs h ps2.
Proof. unfold valid_refs. apply forallb_app. Qed.

Lemma stat_int_statistics_of h ps key :
  key ∈ count_keys →
  ∃ z, stat_int (statistics_of h ps) key = Some z
    ∧ z = match key with
          | "passing_count" => count_status "success" (fleet_workflows h ps)
          | "failing_count" => count_status "failure" (fleet_workflows h ps)
          | "stale_count" => count_stale (fleet_workflows h ps)
          | "pending_count" => count_status "pending" (fleet_workflows h ps)
          | "total_workflows" => Z.of_nat (length (fleet_workflows h ps))
          | _ => Z.of_nat (length ps)
          end.
Proof.
  unfold count_keys. rewrite !elem_of_cons, elem_of_nil.
  intros [->|[->|[->|[->|[->|[->|[]]]]]]]; eexists; split; reflexivity.
Qed.

(** X3: the counts add up over concatenated lists: each count entry for
    [ps1 ++ ps2] is the sum of the entries for [ps1] and for [ps2]. *)
Theorem calculate_statistics_additive h ps1 ps2 :
  valid_refs h (ps1 ++ ps2) = true →
  ∃ stats1 h1 stats2 h2 stats h',
    calculate_statistics ps1 h = Return stats1 h1
    ∧ calculate_statistics ps2 h = Return stats2 h2
    ∧ calculate_statistics (ps1 ++ ps2) h = Return stats h'
    ∧ Forall (λ key, ∃ a b,
        stat_int stats1 key = Some a ∧ stat_int stats2 key = Some b
        ∧ stat_int stats key = Some (a + b)) count_keys.
Proof.
  intros Hv. pose proof Hv as Hv12.
  rewrite valid_refs_app in Hv12. apply andb_true_iff in Hv12 as [Hv1 Hv2].
  destruct (calculate_statistics_spec h ps1 Hv1) as (h1 & Hrun1 & _).
  destruct (calculate_statistics_spec h ps2 Hv2) as (h2 & Hrun2 & _).
  destruct (calculate_statistics_spec h _ Hv) as (h' & Hrun & _).
  exists (statistics_of h ps1), h1, (statistics_of h ps2), h2,
    (statistics_of h (ps1 ++ ps2)), h'.
  split; [exact Hrun1|]. split; [exact Hrun2|]. split; [exact Hrun|].
  apply Forall_forall. intros key Hkey.
  destruct (stat_int_statistics_of h ps1 key Hkey) as (a & Ha & Ea).
  destruct (stat_int_statistics_of h ps2 key Hkey) as (b & Hb & Eb).
  destruct (stat_int_statistics_of h (ps1 ++ ps2) key Hkey) as (c & Hc & Ec).
  exists a, b. split; [exact Ha|]. split; [exact Hb|]. rewrite Hc. f_equal.
  subst a b c. rewrite fleet_workflows_app, !count_status_app, count_stale_app, !length_app.
  unfold count_keys in Hkey. rewrite !elem_of_cons, elem_of_nil in Hkey.
  destruct Hkey as [->|[->|[->|[->|[->|[->|[]]]]]]]; lia.
Qed.

Lemma calculate_statistics_additive_witness :
  valid_refs sample_store ([1; 2]%positive ++ [3; 2]%positive) = true
  ∧ ∃ stats1 h1 stats2 h2 stats h',
    calculate_statistics [1; 2]%positive sample_store = Return stats1 h1
    ∧ calculate_statistics [3; 2]%positive sample_store = Return stats2 h2
    ∧ calculate_statistics ([1; 2]%positive ++ [3; 2]%positive) sample_store = Return stats h'
    ∧ Forall (λ key, ∃ a b,
        stat_int stats1 key = Some a ∧ stat_int stats2 key = Some b
        ∧ stat_int stats key = Some (a + b)) count_keys.
Proof.
  split; [reflexivity|].
  exact (calculate_statistics_additive sample_store [1; 2]%positive [3; 2]%positive eq_refl).
Defined.

Lemma sum_project_counts status h ps :
  sum_Z (map (λ l, count_status status (project_workflows h l)) ps)
  = count_status status (fleet_workflows h ps).
Proof.
  unfold fleet_workflows. induction ps as [|l ps IH]; [reflexivity|].
  simpl. by rewrite count_status_app, IH.
Qed.

Lemma tallied_counters h0 h' l :
  same_shape h0 h' → tallied h' l →
  project_counter passing_workflows h' l = count_status "success" (project_workflows h0 l)
  ∧ project_counter failing_workflows h' l = count_status "failure" (project_workflows h0 l).
Proof.
  intros Hs (p & Hp & Hpass & Hfail). unfold project_counter. rewrite Hp.
  by rewrite <- (same_shape_project_workflows h0 h' l Hs).
Qed.

(** X4: the fleet-wide [passing_count] is the sum, over the list, of the
    [passing_workflows] the call stored on each project, and [failing_count]
    the sum of the stored [failing_workflows]. *)
Theorem fleet_counts_sum_project_counters h ps :
  valid_refs h ps = true →
  ∃ stats h', calculate_statistics ps h = Return stats h'
    ∧ stat_int stats "passing_count"
      = Some (sum_Z (map (project_counter passing_workflows h') ps))
    ∧ stat_int stats "failing_count"
      = Some (sum_Z (map (project_counter failing_workflows h') ps)).
Proof.
  intros Hv.
  destruct (calculate_statistics_spec h ps Hv) as (h' & Hrun & Hs & _ & Hin).
  exists (statistics_of h ps), h'. split; [exact Hrun|].
  assert (Hmap : ∀ (f : ProjectData → Z) status,
    (∀ l, l ∈ ps → project_counter f h' l = count_status status (project_workflows h l)) →
    sum_Z (map (project_counter f h') ps) = count_status status (fleet_workflows h ps)).
  { intros f status Hf. rewrite <- sum_project_counts. f_equal.
    apply map_ext_in. intros l Hl. apply Hf. by apply list_elem_of_In. }
  split.
  - rewrite (Hmap _ "success"); [reflexivity|].
    intros l Hl. by apply (tallied_counters h h' l Hs (Hin l Hl)).
  - rewrite (Hmap _ "failure"); [reflexivity|].
    intros l Hl. by apply (tallied_counters h h' l Hs (Hin l Hl)).
Qed.

Lemma fleet_counts_sum_project_counters_witness :
  valid_refs sample_store [1; 2; 3; 2]%positive = true
  ∧ ∃ stats h', calculate_statistics [1; 2; 3; 2]%positive sample_store = Return stats h'
    ∧ stat_int stats "passing_count"
      = Some (sum_Z (map (project_counter passing_workflows h') [1; 2; 3; 2]%positive))
    ∧ stat_int stats "failing_count"
      = Some (sum_Z (map (project_counter failing_workflows h') [1; 2; 3; 2]%positive)).
Proof.
  split; [reflexivity|].
  exact (fleet_counts_sum_project_counters sample_store [1; 2; 3; 2]%positive eq_refl).
Defined.

Lemma count_status_bounds status ws :
  0 ≤ count_status status ws ≤ Z.of_nat (length ws).
Proof. unfold count_status. pose proof (length_filter (λ w, workflow_status w = status) ws). lia. Qed.

Lemma count_stale_bounds ws : 0 ≤ count_stale ws ≤ Z.of_nat (length ws).
Proof. unfold count_stale. pose proof (length_filter (λ w, is_stale w = true) ws). lia. Qed.

Lemma length_project_workflows h l :
  valid_project h l = true →
  Z.of_nat (length (project_workflows h l)) = declared_workflows h l.
Proof.
  unfold valid_project, project_workflows, declared_workflows.
  destruct (projects_of h !! l) as [p|]; [|discriminate].
  rewrite build_workflows_effective. intros Hl. rewrite (length_deref _ _ Hl).
  unfold effective_set. by rewrite length_app.
Qed.

(** X5: every fleet count lies between 0 and [total_workflows], and on every
    listed project the two stored counters are non-negative and together do
    not exceed the number of workflows the project declares. *)
Theorem counts_within_bounds h ps :
  valid_refs h ps = true →
  ∃ stats h' total, calculate_statistics ps h = Return stats h'
    ∧ stat_int stats "total_workflows" = Some total
    ∧ Forall (λ key, ∃ z, stat_int stats key = Some z ∧ 0 ≤ z ≤ total)
        ["passing_count"; "failing_count"; "stale_count"; "pending_count"]
    ∧ Forall (λ l,
        0 ≤ project_counter passing_workflows h' l
        ∧ 0 ≤ project_counter failing_workflows h' l
        ∧ project_counter passing_workflows h' l + project_counter failing_workflows h' l
          ≤ declared_workflows h' l) ps.
Proof.
  intros Hv.
  destruct (calculate_statistics_spec h ps Hv) as (h' & Hrun & Hs & _ & Hin).
  set (ws := fleet_workflows h ps).
  exists (statistics_of h ps), h', (Z.of_nat (length ws)).
  split; [exact Hrun|]. split; [reflexivity|]. split.
  - repeat apply Forall_cons_2; [| | | |apply Forall_nil_2]; eexists;
      (split; [reflexivity|]); apply count_status_bounds || apply count_stale_bounds.
  - apply Forall_forall. intros l Hl.
    destruct (tallied_counters h h' l Hs (Hin l Hl)) as [-> ->].
    assert (Hvl : valid_project h' l = true).
    { rewrite (same_shape_valid_project h h' l Hs).
      unfold valid_refs in Hv. rewrite forallb_forall in Hv.
      apply Hv. by apply list_elem_of_In. }
    rewrite <- (length_project_workflows h' l Hvl).
    rewrite (same_shape_project_workflows h h' l Hs).
    pose proof (length_by_status (project_workflows h l)).
    pose proof (count_status_bounds "success" (project_workflows h l)).
    pose proof (count_status_bounds "failure" (project_workflows h l)).
    pose proof (count_status_bounds "pending" (project_workflows h l)).
    lia.
Qed.

Lemma counts_within_bounds_witness :
  valid_refs sample_store sample_projects = true
  ∧ ∃ stats h' total, calculate_statistics sample_projects sample_store = Return stats h'
    ∧ stat_int stats "total_workflows" = Some total
    ∧ Forall (λ key, ∃ z, stat_int stats key = Some z ∧ 0 ≤ z ≤ total)
        ["passing_count"; "failing_count"; "stale_count"; "pending_count"]
    ∧ Forall (λ l,
        0 ≤ project_counter passing_workflows h' l
        ∧ 0 ≤ project_counter failing_workflows h' l
        ∧ project_counter passing_workflows h' l + project_counter failing_workflows h' l
          ≤ declared_workflows h' l) sample_projects.
Proof.
  split; [reflexivity|].
  exact (counts_within_bounds sample_store sample_projects eq_refl).
Defined.

(** ** set_status over runs of calls *)

Lemma set_status_display status time stale w :
  (display_class (set_status status time stale w),
   icon_class (set_status status time stale w))
  = if String.eqb status "success" || String.eqb status "failure"
    then display_of_status status
    else (display_class w, icon_class w).
Proof.
  unfold set_status, display_of_status.
  destruct (String.eqb status "success"); [reflexivity|].
  destruct (String.eqb status "failure"); reflexivity.
Qed.

Lemma set_status_calls_display calls : ∀ w acc,
  (display_class w, icon_class w)
  = from_option display_of_status ("yellow-cell", "fa-solid fa-circle-question") acc →
  (display_class (set_status_calls calls w), icon_class (set_status_calls calls w))
  = from_option display_of_status ("yellow-cell", "fa-solid fa-circle-question")
      (last_decisive acc calls).
Proof.
  induction calls as [|[[status time] stale] calls IH]; intros w acc Hw; [exact Hw|].
  unfold set_status_calls, last_decisive in *. cbn [foldl]. apply IH.
  rewrite set_status_display.
  destruct (String.eqb status "success" || String.eqb status "failure"); [reflexivity|exact Hw].
Qed.

(** X6: after any run of [set_status] calls on a freshly constructed
    workflow, the display class and icon are those of the last call whose
    status was "success" or "failure", and the neutral pair if there was no
    such call; statuses of later calls do not change them. *)
Theorem display_follows_last_decisive_status name url owner repo branch calls :
  let w := set_status_calls calls (WorkflowElemData_init name url owner repo branch) in
  (display_class w, icon_class w)
  = match last_decisive None calls with
    | Some status => display_of_status status
    | None => ("yellow-cell", "fa-solid fa-circle-question")
    end.
Proof.
  intros w. subst w.
  rewrite (set_status_calls_display calls _ None); [|reflexivity].
  by destruct (last_decisive None calls).
Qed.

(** The fields that identify a workflow. *)
Lemma set_status_identity status time stale w :
  let w' := set_status status time stale w in
  workflow_name w' = workflow_name w ∧ workflow_url w' = workflow_url w
  ∧ wf_owner w' = wf_owner w ∧ wf_repo w' = wf_repo w
  ∧ branch w' = branch w ∧ friendly_name w' = friendly_name w.
Proof.
  unfold set_status.
  destruct (String.eqb status "success"); [done|].
  destruct (String.eqb status "failure"); done.
Qed.

Lemma set_status_outcome status time stale w :
  let w' := set_status status time stale w in
  workflow_status w' = status ∧ conclusion_time w' = time
  ∧ conclusion_time_one_line w' = str_replace "<br>" " " time
  ∧ is_stale w' = stale.
Proof.
  unfold set_status.
  destruct (String.eqb status "success"); [done|].
  destruct (String.eqb status "failure"); done.
Qed.

(** X7: a run of [set_status] calls never changes the name, URL, owner,
    repository, branch or friendly name of the workflow, and after a
    non-empty run the status, conclusion time, its one-line form and the
    stale flag are those of the last call. *)
Theorem set_status_calls_frame_and_outcome calls status time stale w :
  let w' := set_status_calls (calls ++ [(status, time, stale)]) w in
  workflow_name w' = workflow_name w ∧ workflow_url w' = workflow_url w
  ∧ wf_owner w' = wf_owner w ∧ wf_repo w' = wf_repo w
  ∧ branch w' = branch w ∧ friendly_name w' = friendly_name w
  ∧ workflow_status w' = status ∧ conclusion_time w' = time
  ∧ conclusion_time_one_line w' = str_replace "<br>" " " time
  ∧ is_stale w' = stale.
Proof.
  intros w'. subst w'. unfold set_status_calls. rewrite foldl_app. cbn [foldl].
  set (w1 := foldl _ w calls).
  assert (Hid : workflow_name w1 = workflow_name w ∧ workflow_url w1 = workflow_url w
    ∧ wf_owner w1 = wf_owner w ∧ wf_repo w1 = wf_repo w
    ∧ branch w1 = branch w ∧ friendly_name w1 = friendly_name w).
  { subst w1. revert w. induction calls as [|[[s t] b] calls IH]; intros w; [done|].
    cbn [foldl]. destruct (IH (set_status s t b w)) as (?&?&?&?&?&?).
    destruct (set_status_identity s t b w) as (?&?&?&?&?&?).
    repeat split; congruence. }
  destruct Hid as (?&?&?&?&?&?).
  destruct (set_status_identity status time stale w1) as (?&?&?&?&?&?).
  destruct (set_status_outcome status time stale w1) as (?&?&?&?).
  repeat split; congruence.
Qed.

(** X8: a call overwrites the one before it: when the second status is
    "success" or "failure", or the first is neither, the two calls leave the
    object as the second call alone would. *)
Theorem set_status_overwrites s1 t1 b1 s2 t2 b2 w :
  (s2 = "success" ∨ s2 = "failure") ∨ (s1 ≠ "success" ∧ s1 ≠ "failure") →
  set_status s2 t2 b2 (set_status s1 t1 b1 w) = set_status s2 t2 b2 w.
Proof.
  intros [[->| ->]|[H1 H2]].
  - unfold set_status.
    destruct (String.eqb s1 "success"), (String.eqb s1 "failure"); reflexivity.
  - unfold set_status.
    destruct (String.eqb s1 "success"), (String.eqb s1 "failure"); reflexivity.
  - apply String.eqb_neq in H1, H2. unfold set_status. rewrite H1, H2. reflexivity.
Qed.

Lemma set_status_overwrites_witness :
  (("success" = "success" ∨ "success" = "failure")
   ∨ ("failure" ≠ "success" ∧ "failure" ≠ "failure"))
  ∧ set_status "success" "1 hour ago" false
      (set_status "failure" "2 hours<br>ago" true
         (WorkflowElemData_init "smoke.yml" "https://github.com/test-org/repo1"
            "test-org" "repo1" ""))
    = set_status "success" "1 hour ago" false
        (WorkflowElemData_init "smoke.yml" "https://github.com/test-org/repo1"
           "test-org" "repo1" "").
Proof.
  assert (H : ("success" = "success" ∨ "success" = "failure")
              ∨ ("failure" ≠ "success" ∧ "failure" ≠ "failure"))
    by (left; left; reflexivity).
  split; [exact H|].
  exact (set_status_overwrites "failure" "2 hours<br>ago" true "success" "1 hour ago" false
           (WorkflowElemData_init "smoke.yml" "https://github.com/test-org/repo1"
              "test-org" "repo1" "") H).
Defined.

(** ** The one-line conclusion time *)

Lemma prefix_empty s : String.prefix "" s = true.
Proof. by destruct s. Qed.

Lemma prefix_cons a p c s :
  String.prefix (String a p) (String c s) = true ↔ a = c ∧ String.prefix p s = true.
Proof.
  simpl. destruct (ascii_dec a c) as [->|Hne]; [tauto|].
  split; [discriminate|]. intros [? _]. contradiction.
Qed.

Lemma prefix_br_inv s :
  String.prefix "<br>" s = true → ∃ rest, s = String "<" (String "b" (String "r" (String ">" rest))).
Proof.
  destruct s as [|c1 [|c2 [|c3 [|c4 rest]]]]; try discriminate.
  - intros H. apply prefix_cons in H as [<- H]. discriminate.
  - intros H. apply prefix_cons in H as [<- H]. apply prefix_cons in H as [<- H]. discriminate.
  - intros H. do 3 apply prefix_cons in H as [<- H]. discriminate.
  - intros H. do 4 apply prefix_cons in H as [<- H]. by exists rest.
Qed.

Lemma replace_br_match rest :
  str_replace "<br>" " " (String "<" (String "b" (String "r" (String ">" rest))))
  = String " " (str_replace "<br>" " " rest).
Proof. destruct rest; reflexivity. Qed.

Lemma replace_br_no_match c rest :
  String.prefix "<br>" (String c rest) = false →
  str_replace "<br>" " " (String c rest) = String c (str_replace "<br>" " " rest).
Proof. intros H. unfold str_replace. cbn [str_replace_from]. by rewrite H. Qed.

(** A pattern without a space that the result starts with was already at the
    start of the input. *)
Lemma prefix_replace_br p : ∀ s,
  str_contains " " p = false →
  String.prefix p (str_replace "<br>" " " s) = true → String.prefix p s = true.
Proof.
  induction p as [|a p IH]; intros s Hsp H; [apply prefix_empty|].
  assert (Ha : a ≠ " "%char ∧ str_contains " " p = false).
  { cbn [str_contains] in Hsp. apply orb_false_iff in Hsp as [H1 H2]. split; [|exact H2].
    intros ->. destruct p; discriminate. }
  destruct Ha as [Ha Hp].
  destruct s as [|c s]; [discriminate|].
  destruct (String.prefix "<br>" (String c s)) eqn:Hm.
  - apply prefix_br_inv in Hm as [rest E]. rewrite E, replace_br_match in H.
    apply prefix_cons in H as [-> _]. contradiction.
  - rewrite (replace_br_no_match _ _ Hm) in H.
    apply prefix_cons in H as [-> H]. apply prefix_cons. split; [done|]. by apply IH.
Qed.

Lemma replace_br_removes_markers s :
  str_contains "<br>" (str_replace "<br>" " " s) = false.
Proof.
  remember (String.length s) as n eqn:Hn. revert s Hn.
  induction n as [n IH] using lt_wf_ind. intros s ->.
  destruct s as [|c s]; [reflexivity|].
  destruct (String.prefix "<br>" (String c s)) eqn:Hm.
  - apply prefix_br_inv in Hm as [rest E]. rewrite E, replace_br_match.
    cbn [str_contains].
    rewrite (IH (String.length rest)); [|rewrite E; simpl; lia|reflexivity].
    rewrite orb_false_r. destruct (str_replace "<br>" " " rest); reflexivity.
  - rewrite (replace_br_no_match _ _ Hm). cbn [str_contains].
    rewrite (IH (String.length s)); [|simpl; lia|reflexivity].
    rewrite orb_false_r.
    destruct (String.prefix "<br>" (String c (str_replace "<br>" " " s))) eqn:Hr; [|done].
    apply prefix_cons in Hr as [<- Hr].
    apply (prefix_replace_br "br>") in Hr; [|reflexivity].
    assert (String.prefix "<br>" (String "<" s) = true) by (by apply prefix_cons).
    congruence.
Qed.

Lemma replace_br_without_marker s :
  str_contains "<br>" s = false → str_replace "<br>" " " s = s.
Proof.
  induction s as [|c s IH]; [reflexivity|]. intros H.
  cbn [str_contains] in H. apply orb_false_iff in H as [Hm Hs].
  rewrite (replace_br_no_match _ _ Hm). by rewrite IH.
Qed.

(** X9: whatever conclusion time is passed, the one-line form stored by
    [set_status] contains no "<br>" marker. *)
Theorem one_line_time_has_no_line_break status time stale w :
  str_contains "<br>" (conclusion_time_one_line (set_status status time stale w)) = false.
Proof.
  destruct (set_status_outcome status time stale w) as (_ & _ & -> & _).
  apply replace_br_removes_markers.
Qed.

(** X10: a conclusion time without a "<br>" marker is stored unchanged in
    both fields. *)
Theorem one_line_time_unchanged_without_line_break status time stale w :
  str_contains "<br>" time = false →
  conclusion_time_one_line (set_status status time stale w) = time
  ∧ conclusion_time (set_status status time stale w) = time.
Proof.
  intros H. destruct (set_status_outcome status time stale w) as (_ & -> & -> & _).
  split; [by apply replace_br_without_marker|reflexivity].
Qed.

Lemma one_line_time_unchanged_without_line_break_witness :
  str_contains "<br>" "30 minutes ago" = false
  ∧ conclusion_time_one_line
      (set_status "failure" "30 minutes ago" false
         (WorkflowElemData_init "smoke.yml" "https://github.com/test-org/repo2"
            "test-org" "repo2" "")) = "30 minutes ago"
  ∧ conclusion_time
      (set_status "failure" "30 minutes ago" false
         (WorkflowElemData_init "smoke.yml" "https://github.com/test-org/repo2"
            "test-org" "repo2" "")) = "30 minutes ago".
Proof.
  split; [reflexivity|].
  apply (one_line_time_unchanged_without_line_break "failure" "30 minutes ago" false).
  reflexivity.
Defined.

(** ** set_copier_version over runs of calls *)

Lemma set_copier_version_overwrites o tv' v tv p :
  set_copier_version (Some v) tv (set_copier_version o tv' p)
  = set_copier_version (Some v) tv p.
Proof.
  destruct o as [v'|]; [|reflexivity]. unfold set_copier_version.
  destruct (Version_lt v' tv'), (Version_eq v' tv'),
    (Version_lt v tv), (Version_eq v tv); reflexivity.
Qed.

Lemma set_copier_version_calls_last calls p :
  set_copier_version_calls calls p
  = match last_versioned None calls with
    | Some (v, template_version) => set_copier_version (Some v) template_version p
    | None => p
    end.
Proof.
  assert (H : ∀ acc q,
    q = match acc with
        | Some (v, tv) => set_copier_version (Some v) tv p
        | None => p
        end →
    set_copier_version_calls calls q
    = match last_versioned acc calls with
      | Some (v, tv) => set_copier_version (Some v) tv p
      | None => p
      end).
  { unfold set_copier_version_calls, last_versioned.
    induction calls as [|[o tv] calls IH]; intros acc q Hq; [exact Hq|].
    cbn [foldl]. apply IH. destruct o as [v|]; [|exact Hq].
    subst q. destruct acc as [[v0 tv0]|]; [|reflexivity].
    apply set_copier_version_overwrites. }
  by apply (H None p).
Qed.

(** X11: a run of [set_copier_version] calls leaves the object as its last
    call with a version alone would, and unchanged if no call had one. *)
Theorem last_versioned_call_decides calls p :
  set_copier_version_calls calls p
  = match last_versioned None calls with
    | Some (v, template_version) => set_copier_version (Some v) template_version p
    | None => p
    end.
Proof. apply set_copier_version_calls_last. Qed.

(** X12: no run of [set_copier_version] calls changes anything but
    [copier_version] and its display class, and the class is then the one
    the object had or one of the three cell classes. *)
Theorem set_copier_version_calls_frame calls p :
  let p' := set_copier_version_calls calls p in
  owner p' = owner p ∧ repo p' = repo p ∧ icon p' = icon p
  ∧ repo_url p' = repo_url p
  ∧ passing_workflows p' = passing_workflows p
  ∧ failing_workflows p' = failing_workflows p
  ∧ smoke_test p' = smoke_test p ∧ build_docs p' = build_docs p
  ∧ benchmarks p' = benchmarks p ∧ live_build p' = live_build p
  ∧ other_workflows p' = other_workflows p
  ∧ copier_version_display_class p'
    ∈ [copier_version_display_class p; "yellow-cell"; "green-cell"; "red-cell"].
Proof.
  intros p'. subst p'. rewrite set_copier_version_calls_last.
  destruct (last_versioned None calls) as [[v tv]|].
  - unfold set_copier_version.
    destruct (Version_lt v tv); [|destruct (Version_eq v tv)]; simpl;
      repeat split; set_solver.
  - repeat split. set_solver.
Qed.

(** ** read_yaml_file *)


Lemma store_extends_refl h : store_extends h h.
Proof. split; reflexivity. Qed.

Lemma store_extends_trans h1 h2 h3 :
  store_extends h1 h2 → store_extends h2 h3 → store_extends h1 h3.
Proof. intros [? ?] [? ?]. split; etrans; eassumption. Qed.

Lemma allocated_refl h : allocated h h [].
Proof.
  split; [done|]. split; [constructor|].
  split; [intros l Hl; by apply elem_of_nil in Hl|].
  intros l. rewrite elem_of_nil. tauto.
Qed.

Lemma allocated_new_workflow w h l h' :
  new_workflow w h = (l, h') →
  allocated h h' [l] ∧ workflows_of h' !! l = Some w
  ∧ projects_of h' = projects_of h.
Proof.
  unfold new_workflow, allocated. intros [= <- <-]. cbn [workflows_of projects_of].
  set (l := fresh (dom (workflows_of h))).
  assert (Hl : workflows_of h !! l = None).
  { apply not_elem_of_dom. apply is_fresh. }
  clearbody l.
  split; [|split; [apply lookup_insert_eq|done]].
  split; [by apply insert_subseteq|].
  split; [apply NoDup_singleton|].
  split; [by intros l' ->%list_elem_of_singleton|].
  intros l'. rewrite list_elem_of_singleton.
  destruct (decide (l = l')) as [<-|Hne].
  - rewrite lookup_insert_eq. split; [by left|by eauto].
  - rewrite lookup_insert_ne by done. split; [by right|]. intros [->|]; [done|done].
Qed.

Lemma allocated_trans h1 h2 h3 n1 n2 :
  allocated h1 h2 n1 → allocated h2 h3 n2 → allocated h1 h3 (n1 ++ n2).
Proof.
  intros (S1 & D1 & F1 & I1) (S2 & D2 & F2 & I2).
  split; [by etrans|]. split; [|split].
  - apply NoDup_app. split; [done|]. split; [|done].
    intros l Hl1 Hl2. specialize (F2 l Hl2).
    assert (is_Some (workflows_of h2 !! l)) as [? ?] by (apply I1; by left). congruence.
  - intros l [Hl|Hl]%elem_of_app; [by apply F1|].
    specialize (F2 l Hl). destruct (workflows_of h1 !! l) as [w|] eqn:E; [|done].
    apply (lookup_weaken _ _ _ _ E) in S1. congruence.
  - intros l. rewrite I2, I1, elem_of_app. tauto.
Qed.

Lemma allocated_same_workflows h1 h2 h2' news :
  allocated h1 h2 news → workflows_of h2' = workflows_of h2 → allocated h1 h2' news.
Proof. unfold allocated. intros H ->. exact H. Qed.

Lemma names_workflow_extends h h' owner repo branch l name :
  workflows_of h ⊆ workflows_of h' → names_workflow h owner repo branch l name →
  names_workflow h' owner repo branch l name.
Proof. intros Hw H. unfold names_workflow in *. by eapply lookup_weaken. Qed.

Lemma load_slot_spec name owner repo branch assign p c h p' c' h' :
  load_slot name owner repo branch assign p c h = (p', c', h') →
  ∃ o, p' = match o with Some _ => assign o p | None => p end
    ∧ c' = c || present name
    ∧ option_Forall2
        (λ l name, workflows_of h' !! l
                   = Some (WorkflowElemData_init name (repo_url p) owner repo branch))
        o name
    ∧ allocated h h' (option_list o)
    ∧ projects_of h' = projects_of h.
Proof.
  unfold load_slot. destruct name as [name|].
  - destruct (new_workflow _ h) as [w h1] eqn:E. intros [= <- <- <-].
    apply allocated_new_workflow in E as (Ha & Hw & Hp).
    exists (Some w). rewrite orb_true_r.
    split; [done|]. split; [done|]. split; [by constructor|]. by split.
  - intros [= <- <- <-]. exists None. rewrite orb_false_r.
    split; [done|]. split; [done|]. split; [constructor|].
    split; [apply allocated_refl|done].
Qed.

Lemma append_other_workflows_app ws1 ws2 p :
  append_other_workflows ws2 (append_other_workflows ws1 p)
  = append_other_workflows (ws1 ++ ws2) p.
Proof. unfold append_other_workflows. simpl. by rewrite (assoc_L (++)). Qed.

Lemma load_other_workflows_spec names owner repo : ∀ p h p' h',
  load_other_workflows names owner repo p h = (p', h') →
  ∃ ws, p' = append_other_workflows ws p
    ∧ Forall2
        (λ l name, workflows_of h' !! l
                   = Some (WorkflowElemData_init name (repo_url p) owner repo ""))
        ws names
    ∧ allocated h h' ws
    ∧ projects_of h' = projects_of h.
Proof.
  induction names as [|name names IH]; intros p h p' h'.
  - intros [= <- <-]. exists []. split.
    { destruct p. unfold append_other_workflows. simpl. by rewrite app_nil_r. }
    split; [constructor|]. split; [apply allocated_refl|done].
  - cbn [load_other_workflows].
    destruct (new_workflow _ h) as [w h1] eqn:E. intros Hrec.
    apply allocated_new_workflow in E as (Ha & Hw & Hp).
    apply IH in Hrec as (ws & -> & Hall & Ha' & Hp').
    exists (w :: ws). split; [apply (append_other_workflows_app [w] ws p)|].
    split; [|split; [apply (allocated_trans _ _ _ [w] ws Ha Ha')|congruence]].
    constructor; [|exact Hall].
    destruct Ha' as (Hsub & _). by eapply lookup_weaken.
Qed.

Lemma new_project_spec p h l h' :
  new_project p h = (l, h') →
  projects_of h !! l = None
  ∧ projects_of h' = <[l := p]> (projects_of h)
  ∧ workflows_of h' = workflows_of h.
Proof.
  unfold new_project. intros [= <- <-]. cbn [workflows_of projects_of].
  split; [|done]. apply not_elem_of_dom. apply is_fresh.
Qed.

Lemma option_Forall2_names h h' owner repo branch url o name :
  workflows_of h ⊆ workflows_of h' →
  url = "https://github.com/" +:+ owner +:+ "/" +:+ repo →
  option_Forall2
    (λ l name, workflows_of h !! l = Some (WorkflowElemData_init name url owner repo branch))
    o name →
  option_Forall2 (names_workflow h' owner repo branch) o name.
Proof.
  intros Hsub -> [l n H|]; constructor. unfold names_workflow. by eapply lookup_weaken.
Qed.

Lemma load_item_spec item v h owner' repo' :
  item_owner item = Some owner' → item_repo item = Some repo' →
  ∃ v' h' l p, load_item item v h = Loaded v' h'
    ∧ all_projects v' = all_projects v ++ [l]
    ∧ contains_smoke v' = contains_smoke v || present (item_smoke_test item)
    ∧ contains_docs v' = contains_docs v || present (item_build_docs item)
    ∧ contains_bench v' = contains_bench v || present (item_benchmarks item)
    ∧ contains_live v' = contains_live v || present (item_live_build item)
    ∧ contains_other v' = contains_other v || present (item_other_workflows item)
    ∧ projects_of h !! l = None
    ∧ projects_of h' = <[l := p]> (projects_of h)
    ∧ allocated h h' (effective_set p)
    ∧ loaded_from h' item l.
Proof.
  intros Ho Hr. unfold load_item. rewrite Ho, Hr.
  destruct (load_slot (item_smoke_test item) _ _ _ _ _ _ h) as [[p1 c1] h1] eqn:E1.
  destruct (load_slot (item_build_docs item) _ _ _ _ _ _ h1) as [[p2 c2] h2] eqn:E2.
  destruct (load_slot (item_benchmarks item) _ _ _ _ _ _ h2) as [[p3 c3] h3] eqn:E3.
  destruct (load_slot (item_live_build item) _ _ _ _ _ _ h3) as [[p4 c4] h4] eqn:E4.
  apply load_slot_spec in E1 as (o1 & -> & -> & N1 & A1 & P1).
  apply load_slot_spec in E2 as (o2 & -> & -> & N2 & A2 & P2).
  apply load_slot_spec in E3 as (o3 & -> & -> & N3 & A3 & P3).
  apply load_slot_spec in E4 as (o4 & -> & -> & N4 & A4 & P4).
  set (p4 := match o4 with Some _ => _ | None => _ end) in *.
  assert (∃ ws h5 c5, 
    (match item_other_workflows item with
     | Some names =>
         let '(project_data, h) := load_other_workflows names owner' repo' p4 h4 in
         (project_data, true, h)
     | None => (p4, contains_other v, h4)
     end) = (append_other_workflows ws p4, c5, h5)
    ∧ c5 = contains_other v || present (item_other_workflows item)
    ∧ Forall2 (λ l name, workflows_of h5 !! l
                 = Some (WorkflowElemData_init name (repo_url p4) owner' repo' ""))
        ws (default [] (item_other_workflows item))
    ∧ allocated h4 h5 ws ∧ projects_of h5 = projects_of h4) as (ws & h5 & c5 & E5 & -> & N5 & A5 & P5).
  { destruct (item_other_workflows item) as [names|].
    - destruct (load_other_workflows names owner' repo' p4 h4) as [p5 h5] eqn:E5.
      apply load_other_workflows_spec in E5 as (ws & -> & N5 & A5 & P5).
      exists ws, h5, true. rewrite orb_true_r.
      split; [reflexivity|]. split; [reflexivity|]. split; [exact N5|]. by split.
    - exists [], h4, (contains_other v). rewrite orb_false_r. split.
      { f_equal. f_equal. destruct p4. unfold append_other_workflows. simpl.
        by rewrite app_nil_r. }
      split; [done|]. split; [constructor|]. split; [apply allocated_refl|done]. }
  rewrite E5.
  destruct (new_project (append_other_workflows ws p4) h5) as [l h'] eqn:E6.
  apply new_project_spec in E6 as (Hl & Hp' & Hw').
  exists {| all_projects := all_projects v ++ [l];
            contains_other := contains_other v || present (item_other_workflows item);
            contains_smoke := contains_smoke v || present (item_smoke_test item);
            contains_bench := contains_bench v || present (item_benchmarks item);
            contains_docs := contains_docs v || present (item_build_docs item);
            contains_live := contains_live v || present (item_live_build item) |},
    h', l, (append_other_workflows ws p4).
  split; [reflexivity|]. do 6 (split; [reflexivity|]).
  assert (Hp5 : projects_of h5 = projects_of h) by congruence.
  split; [by rewrite <- Hp5|]. split; [by rewrite Hp', Hp5|].
  pose proof (allocated_trans _ _ _ _ _ A1 (allocated_trans _ _ _ _ _ A2
    (allocated_trans _ _ _ _ _ A3 (allocated_trans _ _ _ _ _ A4 A5)))) as Hall.
  apply (allocated_same_workflows _ _ h' _) in Hall; [|exact Hw'].
  assert (S5 : workflows_of h5 ⊆ workflows_of h') by (by rewrite Hw').
  assert (S4 : workflows_of h4 ⊆ workflows_of h') by (etrans; [apply A5|done]).
  assert (S3 : workflows_of h3 ⊆ workflows_of h') by (etrans; [apply A4|done]).
  assert (S2 : workflows_of h2 ⊆ workflows_of h') by (etrans; [apply A3|done]).
  assert (S1 : workflows_of h1 ⊆ workflows_of h') by (etrans; [apply A2|done]).
  split.
  - subst p4. destruct o1, o2, o3, o4; exact Hall.
  - exists (append_other_workflows ws p4), owner', repo'.
    split; [done|]. split; [done|].
    split; [rewrite Hp'; apply lookup_insert_eq|].
    subst p4. destruct o1, o2, o3, o4; cbn;
      (do 8 (split; [reflexivity|]));
      (split; [eapply option_Forall2_names; [exact S1|reflexivity|]; first [exact N1|inversion N1; constructor]|]);
      (split; [eapply option_Forall2_names; [exact S2|reflexivity|]; first [exact N2|inversion N2; constructor]|]);
      (split; [eapply option_Forall2_names; [exact S3|reflexivity|]; first [exact N3|inversion N3; constructor]|]);
      (split; [eapply option_Forall2_names; [exact S4|reflexivity|]; first [exact N4|inversion N4; constructor]|]);
      (eapply Forall2_impl; [exact N5|]; intros ? ? Hlk; unfold names_workflow;
       eapply lookup_weaken; [exact Hlk|exact S5]).
Qed.

Lemma loaded_from_extends h h' item l :
  store_extends h h' → loaded_from h item l → loaded_from h' item l.
Proof.
  intros [Sw Sp] (p & o & r & Ho & Hr & Hp & F1 & F2 & F3 & F4 & F5 & F6 & F7 & F8
                  & N1 & N2 & N3 & N4 & N5).
  exists p, o, r. split; [done|]. split; [done|].
  split; [by eapply lookup_weaken|]. do 8 (split; [done|]).
  assert (Hopt : ∀ b x y, option_Forall2 (names_workflow h o r b) x y →
                          option_Forall2 (names_workflow h' o r b) x y).
  { intros b x y [l0 n0 H0|]; constructor. by eapply names_workflow_extends. }
  repeat split; try (by apply Hopt).
  eapply Forall2_impl; [exact N5|]. intros ? ? ?. by eapply names_workflow_extends.
Qed.

Lemma workflow_refs_cons h l p ps :
  projects_of h !! l = Some p →
  workflow_refs h (l :: ps) = effective_set p ++ workflow_refs h ps.
Proof. intros H. unfold workflow_refs. cbn [map concat]. by rewrite H. Qed.

Lemma workflow_refs_extends h h' ps :
  projects_of h ⊆ projects_of h' → Forall (λ l, is_Some (projects_of h !! l)) ps →
  workflow_refs h' ps = workflow_refs h ps.
Proof.
  intros Hsub Hall. unfold workflow_refs. f_equal. apply map_ext_in.
  intros l Hl. rewrite Forall_forall in Hall.
  destruct (Hall l) as [p Hp]; [by apply list_elem_of_In|].
  by rewrite Hp, (lookup_weaken _ _ _ _ Hp Hsub).
Qed.

Lemma load_repos_spec repos : ∀ v h,
  first_missing_key repos = None →
  ∃ v' h' news, load_repos repos v h = Loaded v' h'
    ∧ all_projects v' = all_projects v ++ news
    ∧ contains_smoke v' = contains_smoke v || existsb (λ i, present (item_smoke_test i)) repos
    ∧ contains_docs v' = contains_docs v || existsb (λ i, present (item_build_docs i)) repos
    ∧ contains_bench v' = contains_bench v || existsb (λ i, present (item_benchmarks i)) repos
    ∧ contains_live v' = contains_live v || existsb (λ i, present (item_live_build i)) repos
    ∧ contains_other v' = contains_other v
                          || existsb (λ i, present (item_other_workflows i)) repos
    ∧ Forall2 (loaded_from h') repos news
    ∧ NoDup news
    ∧ Forall (λ l, projects_of h !! l = None) news
    ∧ projects_of h ⊆ projects_of h'
    ∧ allocated h h' (workflow_refs h' news).
Proof.
  induction repos as [|item repos IH]; intros v h Hkeys.
  - exists v, h, []. cbn [load_repos existsb]. rewrite !orb_false_r, app_nil_r.
    do 7 (split; [reflexivity|]). split; [constructor|]. split; [constructor|].
    split; [constructor|]. split; [reflexivity|]. apply allocated_refl.
  - cbn [first_missing_key] in Hkeys.
    destruct (item_owner item) as [o|] eqn:Ho; [|discriminate].
    destruct (item_repo item) as [r|] eqn:Hr; [|discriminate].
    destruct (load_item_spec item v h o r Ho Hr)
      as (v1 & h1 & l & p & Hrun1 & Hps1 & C1 & C2 & C3 & C4 & C5 & Hl & Hp1 & A1 & L1).
    destruct (IH v1 h1 Hkeys)
      as (v' & h' & news & Hrun & Hps & D1 & D2 & D3 & D4 & D5 & L & ND & Hnone & Hsub & A).
    assert (Hsub1 : projects_of h ⊆ projects_of h1).
    { rewrite Hp1. by apply insert_subseteq. }
    assert (Hlp1 : projects_of h1 !! l = Some p) by (rewrite Hp1; apply lookup_insert_eq).
    assert (Hlp : projects_of h' !! l = Some p) by (by eapply lookup_weaken).
    exists v', h', (l :: news).
    split; [cbn [load_repos]; by rewrite Hrun1|].
    split; [by rewrite Hps, Hps1, <- (assoc_L (++))|].
    cbn [existsb].
    split; [by rewrite D1, C1, orb_assoc|]. split; [by rewrite D2, C2, orb_assoc|].
    split; [by rewrite D3, C3, orb_assoc|]. split; [by rewrite D4, C4, orb_assoc|].
    split; [by rewrite D5, C5, orb_assoc|].
    split; [|split; [|split; [|split]]].
    + constructor; [|exact L]. apply (loaded_from_extends h1 h'); [|exact L1].
      split; [apply A|exact Hsub].
    + constructor; [|exact ND]. intros Hin. rewrite Forall_forall in Hnone.
      rewrite (Hnone l Hin) in Hlp1. discriminate.
    + constructor; [exact Hl|]. eapply Forall_impl; [exact Hnone|].
      intros l' Hl'. simpl in Hl'. destruct (projects_of h !! l') as [q|] eqn:E; [|done].
      apply (lookup_weaken _ _ _ _ E) in Hsub1. congruence.
    + by etrans.
    + rewrite (workflow_refs_cons h' l p news Hlp). by eapply allocated_trans.
Qed.

Lemma load_repos_key_error repos : ∀ v h key,
  first_missing_key repos = Some key → load_repos repos v h = KeyError key.
Proof.
  induction repos as [|item repos IH]; intros v h key Hkey; [discriminate|].
  cbn [first_missing_key] in Hkey. cbn [load_repos].
  destruct (item_owner item) as [o|] eqn:Ho.
  - destruct (item_repo item) as [r|] eqn:Hr.
    + destruct (load_item_spec item v h o r Ho Hr) as (v1 & h1 & l & p & -> & _).
      by apply IH.
    + injection Hkey as <-. unfold load_item. by rewrite Ho, Hr.
  - injection Hkey as <-. unfold load_item. by rewrite Ho.
Qed.

(** What a successful [read_yaml_file] returns and leaves in the store. *)
Lemma read_yaml_file_spec {Link} (data : yaml_data Link) last_updated h :
  let repos := default [] (data_repos data) in
  first_missing_key repos = None →
  ∃ cfg h' ps, read_yaml_file data last_updated h = Loaded cfg h'
    ∧ cfg !! "all_projects" = Some (CProjects ps)
    ∧ cfg !! "page_title" = Some (from_option CStr CNone (data_page_title data))
    ∧ cfg !! "extra_links" = Some (CLinks (default [] (data_extra_links data)))
    ∧ cfg !! "copier_project"
      = Some (CStr (default "lincc-frameworks/python-project-template"
                      (data_copier_project data)))
    ∧ cfg !! "dash_name" = Some (CStr "LINCC Frameworks Builds")
    ∧ cfg !! "dash_repo" = Some (CStr "lf-workflow-dash")
    ∧ cfg !! "last_updated" = Some (CStr last_updated)
    ∧ cfg !! "contains_smoke"
      = Some (CBool (existsb (λ i, present (item_smoke_test i)) repos))
    ∧ cfg !! "contains_docs"
      = Some (CBool (existsb (λ i, present (item_build_docs i)) repos))
    ∧ cfg !! "contains_bench"
      = Some (CBool (existsb (λ i, present (item_benchmarks i)) repos))
    ∧ cfg !! "contains_live"
      = Some (CBool (existsb (λ i, present (item_live_build i)) repos))
    ∧ cfg !! "contains_other"
      = Some (CBool (existsb (λ i, present (item_other_workflows i)) repos))
    ∧ Forall2 (loaded_from h') repos ps
    ∧ NoDup ps
    ∧ Forall (λ l, projects_of h !! l = None) ps
    ∧ projects_of h ⊆ projects_of h'
    ∧ allocated h h' (workflow_refs h' ps).
Proof.
  intros repos Hkeys.
  destruct (load_repos_spec repos (mkLoadLocals [] false false false false false) h Hkeys)
    as (v' & h' & news & Hrun & Hps & D1 & D2 & D3 & D4 & D5 & L & ND & Hnone & Hsub & A).
  cbn [all_projects contains_smoke contains_docs contains_bench contains_live
       contains_other app orb] in Hps, D1, D2, D3, D4, D5.
  subst news. unfold read_yaml_file. fold repos. rewrite Hrun.
  eexists _, h', (all_projects v'). split; [reflexivity|].
  rewrite <- D1, <- D2, <- D3, <- D4, <- D5.
  do 12 (split; [reflexivity|]).
  split; [exact L|]. split; [exact ND|]. split; [exact Hnone|]. split; [exact Hsub|exact A].
Qed.

Lemma loaded_from_refs h item l :
  loaded_from h item l →
  ∃ p, projects_of h !! l = Some p
    ∧ Forall (λ r, ∃ w, workflows_of h !! r = Some w ∧ untouched w) (effective_set p).
Proof.
  intros (p & o & r & _ & _ & Hp & _ & _ & _ & _ & _ & _ & _ & _ & N1 & N2 & N3 & N4 & N5).
  exists p. split; [exact Hp|].
  assert (Hopt : ∀ b x y, option_Forall2 (names_workflow h o r b) x y →
    Forall (λ r, ∃ w, workflows_of h !! r = Some w ∧ untouched w) (option_list x)).
  { intros b x y [l0 n0 H0|]; simpl; constructor; [|constructor].
    eexists. split; [exact H0|]. by repeat split. }
  unfold effective_set, present_slots. rewrite !Forall_app.
  repeat split; try (by eapply Hopt).
  induction N5 as [|r0 n0 rs ns H0 _ IH]; constructor; [|exact IH].
  eexists. split; [exact H0|]. by repeat split.
Qed.

Lemma loaded_from_valid h item l : loaded_from h item l → valid_project h l = true.
Proof.
  intros (p & Hp & Hall)%loaded_from_refs. unfold valid_project.
  rewrite Hp, build_workflows_effective. apply forallb_forall.
  intros r Hr. apply bool_decide_eq_true. rewrite Forall_forall in Hall.
  destruct (Hall r) as (w & Hw & _); [by apply list_elem_of_In|]. by eexists.
Qed.

Lemma loaded_from_workflows h item l :
  loaded_from h item l → Forall untouched (project_workflows h l).
Proof.
  intros (p & Hp & Hall)%loaded_from_refs. unfold project_workflows, deref.
  rewrite Hp. induction Hall as [|r rs (w & Hw & Hu) _ IH]; [constructor|].
  cbn [omap list_omap]. rewrite Hw. by constructor.
Qed.

Lemma Forall2_loaded_valid h repos ps :
  Forall2 (loaded_from h) repos ps → valid_refs h ps = true.
Proof.
  unfold valid_refs. induction 1 as [|item l repos ps H _ IH]; [reflexivity|].
  simpl. by rewrite (loaded_from_valid h item l H), IH.
Qed.

Lemma Forall2_loaded_workflows h repos ps :
  Forall2 (loaded_from h) repos ps → Forall untouched (fleet_workflows h ps).
Proof.
  unfold fleet_workflows. induction 1 as [|item l repos ps H _ IH]; [constructor|].
  cbn [map concat]. apply Forall_app. split; [by eapply loaded_from_workflows|exact IH].
Qed.

Lemma untouched_counts ws :
  Forall untouched ws →
  count_status "success" ws = 0 ∧ count_status "failure" ws = 0
  ∧ count_stale ws = 0 ∧ count_status "pending" ws = Z.of_nat (length ws).
Proof.
  induction 1 as [|w ws (Hs & Hst & _) _ (I1 & I2 & I3 & I4)]; [done|].
  rewrite !count_status_cons, count_stale_cons, Hs, Hst, I1, I2, I3, I4.
  cbn [length]. repeat split; try done. rewrite decide_True by done. lia.
Qed.

(** X14: on success [all_projects] has one project per entry of [repos], and
    every reference in it, and every workflow reference of those projects,
    names an object of the store: the list can be passed to
    [calculate_statistics] as it is. *)
Theorem loaded_projects_are_valid {Link} (data : yaml_data Link) last_updated h :
  first_missing_key (default [] (data_repos data)) = None →
  ∃ cfg h' ps, read_yaml_file data last_updated h = Loaded cfg h'
    ∧ cfg !! "all_projects" = Some (CProjects ps)
    ∧ length ps = length (default [] (data_repos data))
    ∧ valid_refs h' ps = true.
Proof.
  intros E.
  destruct (read_yaml_file_spec data last_updated h E)
    as (cfg & h' & ps & Hrun & Hps & _ & _ & _ & _ & _ & _ & _ & _ & _ & _ & _ & L & _).
  exists cfg, h', ps. split; [exact Hrun|]. split; [exact Hps|].
  split; [symmetry; by eapply Forall2_length|by eapply Forall2_loaded_valid].
Qed.

(** X15: loading only adds objects: every object of the store before the call
    is still there unchanged, the new projects sit at distinct references
    that named no project before, and their workflows sit at distinct
    references that named no workflow before, so no two slots share one. *)
Theorem loading_only_adds_fresh_objects {Link} (data : yaml_data Link) last_updated h :
  first_missing_key (default [] (data_repos data)) = None →
  ∃ cfg h' ps, read_yaml_file data last_updated h = Loaded cfg h'
    ∧ cfg !! "all_projects" = Some (CProjects ps)
    ∧ store_extends h h'
    ∧ NoDup ps ∧ Forall (λ l, projects_of h !! l = None) ps
    ∧ NoDup (workflow_refs h' ps)
    ∧ Forall (λ l, workflows_of h !! l = None) (workflow_refs h' ps).
Proof.
  intros E.
  destruct (read_yaml_file_spec data last_updated h E)
    as (cfg & h' & ps & Hrun & Hps & _ & _ & _ & _ & _ & _ & _ & _ & _ & _ & _
        & L & ND & Hnone & Hsub & (Hw & NDw & Hfresh & _)).
  exists cfg, h', ps. split; [exact Hrun|]. split; [exact Hps|].
  split; [by split|]. split; [exact ND|]. split; [exact Hnone|].
  split; [exact NDw|]. by apply Forall_forall.
Qed.

Lemma str_append_assoc (a b c : string) : (a +:+ b) +:+ c = a +:+ (b +:+ c).
Proof.
  induction a as [|x a IH]; [reflexivity|].
  change ((String x a +:+ b) +:+ c) with (String x ((a +:+ b) +:+ c)).
  change (String x a +:+ (b +:+ c)) with (String x (a +:+ (b +:+ c))).
  by rewrite IH.
Qed.

Lemma names_workflow_as_configured h o r b l name :
  names_workflow h o r b l name → workflow_as_configured h o r b l name.
Proof.
  unfold names_workflow. intros H. eexists. split; [exact H|].
  cbn [workflow_name workflow_url wf_owner wf_repo branch workflow_status
       display_class icon_class conclusion_time conclusion_time_one_line
       is_stale friendly_name WorkflowElemData_init].
  split; [reflexivity|]. split; [|by repeat split].
  by rewrite !str_append_assoc.
Qed.

Lemma loaded_from_as_configured h item l :
  loaded_from h item l → project_as_configured h item l.
Proof.
  intros (p & o & r & Ho & Hr & Hp & F1 & F2 & F3 & F4 & F5 & F6 & F7 & F8
          & N1 & N2 & N3 & N4 & N5).
  exists p, o, r. do 11 (split; [assumption|]).
  assert (Hopt : ∀ b x y, option_Forall2 (names_workflow h o r b) x y →
                          option_Forall2 (workflow_as_configured h o r b) x y).
  { intros b x y [l0 n0 H0|]; constructor. by apply names_workflow_as_configured. }
  split; [by apply Hopt|]. split; [by apply Hopt|]. split; [by apply Hopt|].
  split; [by apply Hopt|].
  eapply Forall2_impl; [exact N5|]. intros ? ? ?. by apply names_workflow_as_configured.
Qed.

(** X16: on success the i-th project of [all_projects] is the one built from
    the i-th entry of [repos]: it has the entry's owner and repo, the URL
    "https://github.com/owner/repo", an empty version with class
    "yellow-cell" and zero counters; each named slot is set exactly when its
    key is present; and every slot and every entry of [other_workflows], in
    the order given, refers to a workflow with the configured name, the URL
    "https://github.com/owner/repo/actions/workflows/name", the entry's owner
    and repo, branch "main" for the live build and no branch otherwise,
    status "pending" with the neutral display, no conclusion time and the
    stale flag off. *)
Theorem loaded_projects_follow_entries {Link} (data : yaml_data Link) last_updated h :
  first_missing_key (default [] (data_repos data)) = None →
  ∃ cfg h' ps, read_yaml_file data last_updated h = Loaded cfg h'
    ∧ cfg !! "all_projects" = Some (CProjects ps)
    ∧ Forall2 (project_as_configured h') (default [] (data_repos data)) ps.
Proof.
  intros E.
  destruct (read_yaml_file_spec data last_updated h E)
    as (cfg & h' & ps & Hrun & Hps & _ & _ & _ & _ & _ & _ & _ & _ & _ & _ & _ & L & _).
  exists cfg, h', ps. split; [exact Hrun|]. split; [exact Hps|].
  eapply Forall2_impl; [exact L|]. intros ? ?. apply loaded_from_as_configured.
Qed.

(** X17: each [contains_...] flag is true exactly when some entry of [repos]
    has the corresponding key; for [contains_other] an entry with an empty
    [other_workflows] list counts. *)
Theorem contains_flags_follow_keys {Link} (data : yaml_data Link) last_updated h :
  let repos := default [] (data_repos data) in
  first_missing_key repos = None →
  ∃ cfg h', read_yaml_file data last_updated h = Loaded cfg h'
    ∧ cfg !! "contains_smoke"
      = Some (CBool (existsb (λ i, present (item_smoke_test i)) repos))
    ∧ cfg !! "contains_docs"
      = Some (CBool (existsb (λ i, present (item_build_docs i)) repos))
    ∧ cfg !! "contains_bench"
      = Some (CBool (existsb (λ i, present (item_benchmarks i)) repos))
    ∧ cfg !! "contains_live"
      = Some (CBool (existsb (λ i, present (item_live_build i)) repos))
    ∧ cfg !! "contains_other"
      = Some (CBool (existsb (λ i, present (item_other_workflows i)) repos)).
Proof.
  intros repos E.
  destruct (read_yaml_file_spec data last_updated h E)
    as (cfg & h' & ps & Hrun & _ & _ & _ & _ & _ & _ & _ & F1 & F2 & F3 & F4 & F5 & _).
  by exists cfg, h'.
Qed.

(** X18: statistics computed right after loading, before any status is set:
    nothing passes, fails or is stale, every workflow is pending, and every
    loaded project gets both counters 0. *)
Theorem statistics_after_loading {Link} (data : yaml_data Link) last_updated h :
  first_missing_key (default [] (data_repos data)) = None →
  ∃ cfg h' ps stats h'' total,
    read_yaml_file data last_updated h = Loaded cfg h'
    ∧ cfg !! "all_projects" = Some (CProjects ps)
    ∧ calculate_statistics ps h' = Return stats h''
    ∧ stat_int stats "passing_count" = Some 0
    ∧ stat_int stats "failing_count" = Some 0
    ∧ stat_int stats "stale_count" = Some 0
    ∧ stat_int stats "pending_count" = Some total
    ∧ stat_int stats "total_workflows" = Some total
    ∧ total = Z.of_nat (length (workflow_refs h' ps))
    ∧ Forall (λ l, project_counter passing_workflows h'' l = 0
                   ∧ project_counter failing_workflows h'' l = 0) ps.
Proof.
  intros E.
  destruct (read_yaml_file_spec data last_updated h E)
    as (cfg & h' & ps & Hrun & Hps & _ & _ & _ & _ & _ & _ & _ & _ & _ & _ & _ & L & _).
  pose proof (Forall2_loaded_valid _ _ _ L) as Hv.
  destruct (calculate_statistics_spec h' ps Hv) as (h'' & Hstat & Hs & _ & Hin).
  destruct (untouched_counts _ (Forall2_loaded_workflows _ _ _ L)) as (C1 & C2 & C3 & C4).
  exists cfg, h', ps, (statistics_of h' ps), h'', (Z.of_nat (length (fleet_workflows h' ps))).
  split; [exact Hrun|]. split; [exact Hps|]. split; [exact Hstat|].
  unfold stat_int.
  rewrite lookup_passing_count, lookup_failing_count, lookup_stale_count,
    lookup_pending_count, lookup_total_workflows, C1, C2, C3, C4.
  do 5 (split; [reflexivity|]). split.
  - f_equal. clear -L. unfold fleet_workflows, workflow_refs.
    induction L as [|item l repos ps H _ IH]; [reflexivity|].
    cbn [map concat]. rewrite !length_app, IH. f_equal.
    destruct (loaded_from_refs _ _ _ H) as (p & Hp & Hall).
    unfold project_workflows, deref. rewrite Hp. cbn [from_option].
    clear -Hall. induction Hall as [|r rs (w & Hw & _) _ IH]; [reflexivity|].
    cbn [omap list_omap]. rewrite Hw. simpl. by rewrite IH.
  - apply Forall_forall. intros l Hl.
    destruct (tallied_counters h' h'' l Hs (Hin l Hl)) as [-> ->].
    assert (Hu : Forall untouched (project_workflows h' l)).
    { clear -L Hl. induction L as [|item l0 repos ps H _ IH]; [by apply elem_of_nil in Hl|].
      apply elem_of_cons in Hl as [->|Hl]; [by eapply loaded_from_workflows|by apply IH]. }
    by destruct (untouched_counts _ Hu) as (-> & -> & _).
Qed.

Lemma loaded_projects_are_valid_witness :
  first_missing_key (default [] (data_repos sample_config)) = None
  ∧ ∃ cfg h' ps, read_yaml_file sample_config "18:00 May 01, 2026 (US-NYC)" empty_store
                 = Loaded cfg h'
    ∧ cfg !! "all_projects" = Some (CProjects ps)
    ∧ length ps = length (default [] (data_repos sample_config))
    ∧ valid_refs h' ps = true.
Proof.
  split; [reflexivity|].
  exact (loaded_projects_are_valid sample_config "18:00 May 01, 2026 (US-NYC)"
           empty_store eq_refl).
Defined.

Lemma loading_only_adds_fresh_objects_witness :
  first_missing_key (default [] (data_repos sample_config)) = None
  ∧ ∃ cfg h' ps, read_yaml_file sample_config "18:00 May 01, 2026 (US-NYC)" sample_store
                 = Loaded cfg h'
    ∧ cfg !! "all_projects" = Some (CProjects ps)
    ∧ store_extends sample_store h'
    ∧ NoDup ps ∧ Forall (λ l, projects_of sample_store !! l = None) ps
    ∧ NoDup (workflow_refs h' ps)
    ∧ Forall (λ l, workflows_of sample_store !! l = None) (workflow_refs h' ps).
Proof.
  split; [reflexivity|].
  exact (loading_only_adds_fresh_objects sample_config "18:00 May 01, 2026 (US-NYC)"
           sample_store eq_refl).
Defined.

Lemma loaded_projects_follow_entries_witness :
  first_missing_key (default [] (data_repos sample_config)) = None
  ∧ ∃ cfg h' ps, read_yaml_file sample_config "18:00 May 01, 2026 (US-NYC)" empty_store
                 = Loaded cfg h'
    ∧ cfg !! "all_projects" = Some (CProjects ps)
    ∧ Forall2 (project_as_configured h') (default [] (data_repos sample_config)) ps.
Proof.
  split; [reflexivity|].
  exact (loaded_projects_follow_entries sample_config "18:00 May 01, 2026 (US-NYC)"
           empty_store eq_refl).
Defined.

Lemma contains_flags_follow_keys_witness :
  first_missing_key (default [] (data_repos sample_config)) = None
  ∧ ∃ cfg h', read_yaml_file sample_config "18:00 May 01, 2026 (US-NYC)" empty_store
              = Loaded cfg h'
    ∧ cfg !! "contains_smoke" = Some (CBool true)
    ∧ cfg !! "contains_docs" = Some (CBool true)
    ∧ cfg !! "contains_bench" = Some (CBool true)
    ∧ cfg !! "contains_live" = Some (CBool true)
    ∧ cfg !! "contains_other" = Some (CBool true).
Proof.
  split; [reflexivity|].
  exact (contains_flags_follow_keys sample_config "18:00 May 01, 2026 (US-NYC)"
           empty_store eq_refl).
Defined.

Lemma statistics_after_loading_witness :
  first_missing_key (default [] (data_repos sample_config)) = None
  ∧ ∃ cfg h' ps stats h'' total,
    read_yaml_file sample_config "18:00 May 01, 2026 (US-NYC)" empty_store = Loaded cfg h'
    ∧ cfg !! "all_projects" = Some (CProjects ps)
    ∧ calculate_statistics ps h' = Return stats h''
    ∧ stat_int stats "passing_count" = Some 0
    ∧ stat_int stats "failing_count" = Some 0
    ∧ stat_int stats "stale_count" = Some 0
    ∧ stat_int stats "pending_count" = Some total
    ∧ stat_int stats "total_workflows" = Some total
    ∧ total = Z.of_nat (length (workflow_refs h' ps))
    ∧ Forall (λ l, project_counter passing_workflows h'' l = 0
                   ∧ project_counter failing_workflows h'' l = 0) ps.
Proof.
  split; [reflexivity|].
  exact (statistics_after_loading sample_config "18:00 May 01, 2026 (US-NYC)"
           empty_store eq_refl).
Defined.

(** ** The type of the percentages *)

Lemma percent_value_of_zero total :
  0 < total → percent_value 0 total = PyFloat 0.
Proof.
  intros H. rewrite percent_value_pos by done.
  destruct total as [|t|t]; [lia| |lia]. reflexivity.
Qed.

(** X20: a percentage is the integer 0 only for a fleet without workflows;
    as soon as there is a workflow, a count of 0 gives the float 0.0. *)
Theorem zero_percent_is_float_unless_empty h ps :
  valid_refs h ps = true →
  let ws := fleet_workflows h ps in
  let passing := count_status "success" ws in
  let failing := count_status "failure" ws in
  let total := Z.of_nat (length ws) in
  ∃ stats h', calculate_statistics ps h = Return stats h'
    ∧ stat_int stats "passing_count" = Some passing
    ∧ stat_int stats "failing_count" = Some failing
    ∧ stat_int stats "total_workflows" = Some total
    ∧ (total = 0 → stats !! "passing_percent" = Some (PyInt 0)
                   ∧ stats !! "failing_percent" = Some (PyInt 0))
    ∧ (0 < total → passing = 0 → stats !! "passing_percent" = Some (PyFloat 0))
    ∧ (0 < total → failing = 0 → stats !! "failing_percent" = Some (PyFloat 0))
    ∧ (0 < total → ∃ x y, stats !! "passing_percent" = Some (PyFloat x)
                          ∧ stats !! "failing_percent" = Some (PyFloat y)).
Proof.
  intros Hv ws passing failing total.
  destruct (calculate_statistics_spec h ps Hv) as (h' & Hrun & _).
  exists (statistics_of h ps), h'.
  split; [exact Hrun|]. do 3 (split; [reflexivity|]).
  rewrite lookup_passing_percent, lookup_failing_percent.
  fold ws. fold passing. fold failing. fold total.
  split; [|split; [|split; [|]]].
  - intros ->. done.
  - intros Hpos ->. by rewrite percent_value_of_zero.
  - intros Hpos ->. by rewrite percent_value_of_zero.
  - intros Hpos. rewrite !percent_value_pos by done. by eexists _, _.
Qed.

Lemma zero_percent_is_float_unless_empty_witness :
  valid_refs sample_store [3%positive] = true
  ∧ ∃ stats h', calculate_statistics [3%positive] sample_store = Return stats h'
    ∧ stats !! "passing_percent" = Some (PyFloat 0)
    ∧ stats !! "failing_percent" = Some (PyFloat 0).
Proof.
  split; [reflexivity|].
  destruct (zero_percent_is_float_unless_empty sample_store [3%positive] eq_refl)
    as (stats & h' & Hrun & _ & _ & _ & _ & Hp & Hf & _).
  exists stats, h'. split; [exact Hrun|].
  split; [apply Hp|apply Hf]; reflexivity.
Defined.

(** ** read_yaml_file on any parsed document *)

Lemma load_raw_item_typed item v h :
  raw_other_workflows item ≠ OtherNotIterable →
  load_raw_item item v h = as_document_outcome (load_item (typed_item item) v h).
Proof.
  intros Hit. unfold load_raw_item, load_item, typed_item.
  cbn [item_owner item_repo item_smoke_test item_build_docs item_benchmarks
       item_live_build item_other_workflows].
  destruct (raw_owner item) as [o|]; [|reflexivity].
  destruct (raw_repo item) as [r|]; [|reflexivity].
  destruct (load_slot (raw_smoke_test item) _ _ _ _ _ _ h) as [[p1 c1] h1].
  destruct (load_slot (raw_build_docs item) _ _ _ _ _ _ h1) as [[p2 c2] h2].
  destruct (load_slot (raw_benchmarks item) _ _ _ _ _ _ h2) as [[p3 c3] h3].
  destruct (load_slot (raw_live_build item) _ _ _ _ _ _ h3) as [[p4 c4] h4].
  destruct (raw_other_workflows item) as [| |names]; [|done|].
  - by destruct (new_project p4 h4).
  - destruct (load_other_workflows names o r p4 h4) as [p5 h5].
    by destruct (new_project p5 h5).
Qed.

Lemma load_raw_item_not_iterable item v h o r :
  raw_owner item = Some o → raw_repo item = Some r →
  raw_other_workflows item = OtherNotIterable →
  load_raw_item item v h = DocRaise LoadTypeError.
Proof.
  intros Ho Hr Hn. unfold load_raw_item. rewrite Ho, Hr, Hn.
  destruct (load_slot (raw_smoke_test item) _ _ _ _ _ _ h) as [[p1 c1] h1].
  destruct (load_slot (raw_build_docs item) _ _ _ _ _ _ h1) as [[p2 c2] h2].
  destruct (load_slot (raw_benchmarks item) _ _ _ _ _ _ h2) as [[p3 c3] h3].
  by destruct (load_slot (raw_live_build item) _ _ _ _ _ _ h3) as [[p4 c4] h4].
Qed.

Lemma load_raw_entries_spec entries : ∀ v h,
  load_raw_entries entries v h
  = match first_entry_error entries with
    | Some e => DocRaise e
    | None => as_document_outcome (load_repos (typed_entries entries) v h)
    end.
Proof.
  induction entries as [|[|item] entries IH]; intros v h; [reflexivity|reflexivity|].
  cbn [load_raw_entries first_entry_error typed_entries omap list_omap].
  destruct (raw_owner item) as [o|] eqn:Ho;
    [|unfold load_raw_item; by rewrite Ho].
  destruct (raw_repo item) as [r|] eqn:Hr;
    [|unfold load_raw_item; by rewrite Ho, Hr].
  destruct (raw_other_workflows item) as [| |names] eqn:Hother.
  - rewrite load_raw_item_typed by congruence.
    destruct (load_item_spec (typed_item item) v h o r Ho Hr)
      as (v1 & h1 & l & p & Hrun & _).
    cbn [load_repos]. rewrite Hrun. cbn [as_document_outcome]. apply IH.
  - by rewrite (load_raw_item_not_iterable item v h o r).
  - rewrite load_raw_item_typed by congruence.
    destruct (load_item_spec (typed_item item) v h o r Ho Hr)
      as (v1 & h1 & l & p & Hrun & _).
    cbn [load_repos]. rewrite Hrun. cbn [as_document_outcome]. apply IH.
Qed.

Lemma first_entry_error_typed entries :
  first_entry_error entries = None →
  first_missing_key (typed_entries entries) = None
  ∧ length (typed_entries entries) = length entries.
Proof.
  induction entries as [|[|item] entries IH]; [done|done|].
  change (typed_entries (EntryMapping item :: entries))
    with (typed_item item :: typed_entries entries).
  cbn [first_entry_error first_missing_key].
  unfold typed_item at 1 2. cbn [item_owner item_repo].
  destruct (raw_owner item); [|done]. destruct (raw_repo item); [|done].
  intros H. assert (Hrest : first_entry_error entries = None)
    by (by destruct (raw_other_workflows item)).
  destruct (IH Hrest) as [H1 H2]. split; [exact H1|]. cbn [length]. by rewrite H2.
Qed.

(** The document loader either raises [document_error] or does what the
    loader of well-typed data does. *)
Lemma read_yaml_document_spec {Link} (document : yaml_document Link) last_updated h :
  read_yaml_document document last_updated h
  = match document_error document with
    | Some e => DocRaise e
    | None => as_document_outcome (read_yaml_file (typed_data document) last_updated h)
    end.
Proof.
  destruct document as [|data]; [reflexivity|].
  unfold read_yaml_document, document_error, read_yaml_file, typed_data.
  cbn [data_page_title data_extra_links data_copier_project data_repos].
  destruct (raw_repos data) as [| |entries]; [reflexivity|reflexivity|].
  rewrite load_raw_entries_spec. cbn [default from_option].
  destruct (first_entry_error entries); [reflexivity|].
  unfold id. by destruct (load_repos (typed_entries entries) _ h).
Qed.

Lemma document_error_none_typed {Link} (document : yaml_document Link) :
  document_error document = None →
  first_missing_key (default [] (data_repos (typed_data document))) = None
  ∧ length (default [] (data_repos (typed_data document)))
    = length (document_entries document).
Proof.
  destruct document as [|data]; [discriminate|].
  unfold document_error, typed_data, document_entries. cbn [data_repos].
  destruct (raw_repos data) as [| |entries]; [done|discriminate|].
  apply first_entry_error_typed.
Qed.

(** X13: what the loader does with any parsed document. A document that is
    not a mapping (an empty file gives [None]) raises [AttributeError]; a
    "repos" value that cannot be iterated (null) raises [TypeError];
    otherwise the first faulty entry decides: [TypeError] for an entry that
    is not a mapping, [KeyError('owner')] or else [KeyError('repo')] for a
    missing key, [TypeError] for an "other_workflows" value that cannot be
    iterated. Without such a fault the call returns, with one project per
    entry. *)
Theorem read_yaml_document_raises_or_loads {Link} (document : yaml_document Link)
    last_updated h :
  match document_error document with
  | Some e => read_yaml_document document last_updated h = DocRaise e
  | None =>
      ∃ cfg h' ps, read_yaml_document document last_updated h = DocLoaded cfg h'
        ∧ cfg !! "all_projects" = Some (CProjects ps)
        ∧ length ps = length (document_entries document)
  end.
Proof.
  rewrite read_yaml_document_spec.
  destruct (document_error document) as [e|] eqn:E; [reflexivity|].
  destruct (document_error_none_typed document E) as [Hkeys Hlen].
  destruct (read_yaml_file_spec (typed_data document) last_updated h Hkeys)
    as (cfg & h' & ps & Hrun & Hps & _ & _ & _ & _ & _ & _ & _ & _ & _ & _ & _ & L & _).
  exists cfg, h', ps. rewrite Hrun. split; [reflexivity|]. split; [exact Hps|].
  rewrite <- Hlen. symmetry. by eapply Forall2_length.
Qed.

(** X19: a key that is missing from the top-level mapping does not raise:
    without "repos" nothing is created, the project list is empty and every
    flag is false; and whenever the call returns, a missing "page_title"
    gives [None], a missing "extra_links" the empty list, a missing
    "copier_project" the python-project-template, while values that are
    present are passed on and [last_updated] is the time passed in. A key
    that is present with a null value is not missing: "repos:" with no value
    raises [TypeError], and a document that is no mapping at all, such as an
    empty file, raises [AttributeError]. *)
Theorem missing_keys_default_and_nulls_raise {Link} (data : raw_data Link)
    last_updated h :
  (raw_repos data = ReposAbsent →
   ∃ cfg, read_yaml_document (DocMapping data) last_updated h = DocLoaded cfg h
     ∧ cfg !! "all_projects" = Some (CProjects [])
     ∧ Forall (λ key, cfg !! key = Some (CBool false))
         ["contains_other"; "contains_smoke"; "contains_docs";
          "contains_bench"; "contains_live"])
  ∧ (raw_repos data = ReposNotIterable →
     read_yaml_document (DocMapping data) last_updated h = DocRaise LoadTypeError)
  ∧ read_yaml_document (@DocNotMapping Link) last_updated h
    = DocRaise LoadAttributeError
  ∧ (∀ cfg h',
       read_yaml_document (DocMapping data) last_updated h = DocLoaded cfg h' →
       cfg !! "page_title"
       = Some (match raw_page_title data with Some t => CStr t | None => CNone end)
       ∧ cfg !! "extra_links"
         = Some (CLinks (match raw_extra_links data with Some ls => ls | None => [] end))
       ∧ cfg !! "copier_project"
         = Some (CStr (match raw_copier_project data with
                       | Some c => c
                       | None => "lincc-frameworks/python-project-template"
                       end))
       ∧ cfg !! "last_updated" = Some (CStr last_updated)
       ∧ cfg !! "dash_name" = Some (CStr "LINCC Frameworks Builds")
       ∧ cfg !! "dash_repo" = Some (CStr "lf-workflow-dash")).
Proof.
  split; [|split; [|split]].
  - intros Hr. unfold read_yaml_document. rewrite Hr. eexists. split; [reflexivity|].
    split; [reflexivity|]. by repeat constructor.
  - intros Hr. unfold read_yaml_document. by rewrite Hr.
  - reflexivity.
  - intros cfg h'. unfold read_yaml_document.
    destruct (match raw_repos data with
              | ReposAbsent => _ | ReposNotIterable => _ | ReposEntries entries => _
              end) as [v1 h1|e]; [|discriminate].
    intros [= <- <-].
    destruct (raw_page_title data), (raw_extra_links data), (raw_copier_project data);
      repeat split.
Qed.

Lemma missing_keys_default_and_nulls_raise_witness :
  (∃ cfg, read_yaml_document (DocMapping (mkRawData string None None None ReposAbsent))
            "18:00 May 01, 2026 (US-NYC)" sample_store = DocLoaded cfg sample_store
     ∧ cfg !! "all_projects" = Some (CProjects [])
     ∧ cfg !! "page_title" = Some CNone
     ∧ cfg !! "extra_links" = Some (CLinks [])
     ∧ cfg !! "copier_project" = Some (CStr "lincc-frameworks/python-project-template"))
  ∧ read_yaml_document (DocMapping (mkRawData string None None None ReposNotIterable))
      "18:00 May 01, 2026 (US-NYC)" sample_store = DocRaise LoadTypeError.
Proof.
  pose proof (missing_keys_default_and_nulls_raise
                (mkRawData string None None None ReposAbsent)
                "18:00 May 01, 2026 (US-NYC)" sample_store) as (Habs & _ & _ & Hdef).
  pose proof (missing_keys_default_and_nulls_raise
                (mkRawData string None None None ReposNotIterable)
                "18:00 May 01, 2026 (US-NYC)" sample_store) as (_ & Hnull & _).
  split; [|exact (Hnull eq_refl)].
  destruct (Habs eq_refl) as (cfg & Hrun & Hps & _).
  destruct (Hdef cfg sample_store Hrun) as (Ht & Hl & Hc & _).
  exists cfg. split; [exact Hrun|]. split; [exact Hps|].
  split; [exact Ht|]. split; [exact Hl|exact Hc].
Defined.

(** A faulty entry after a sound one, and a null "other_workflows" before a
    missing owner: the first fault decides. *)
Example first_fault_decides :
  let sound := EntryMapping (mkRawItem (Some "a") (Some "b") None None None None OtherAbsent) in
  let null_other :=
    EntryMapping (mkRawItem (Some "a") (Some "b") None None None None OtherNotIterable) in
  let no_owner := EntryMapping (mkRawItem None (Some "b") None None None None OtherAbsent) in
  let no_repo := EntryMapping (mkRawItem (Some "a") None None None None None OtherAbsent) in
  let load entries :=
    match read_yaml_document (DocMapping (mkRawData string None None None (ReposEntries entries)))
            "18:00 May 01, 2026 (US-NYC)" empty_store with
    | DocLoaded _ _ => None
    | DocRaise e => Some e
    end in
  load [sound; null_other; no_owner] = Some LoadTypeError
  ∧ load [sound; no_owner; null_other] = Some (LoadKeyError "owner")
  ∧ load [no_repo; no_owner] = Some (LoadKeyError "repo")
  ∧ load [sound; EntryNotMapping; no_owner] = Some LoadTypeError
  ∧ load [sound; sound] = None.
Proof. repeat split. Qed.
